(** * Real-time payment analytics: the streaming generator of [backend/demo.py]

    A shallow embedding of the transaction generator (data loading with
    reservoir sampling, the helper functions, the seven-table fan-out of the
    streaming loop) and of the hourly query of [backend/dashboard.py],
    followed by the properties established about them.

    Conventions of the embedding:
    - Python [float] is IEEE binary64, here the primitive [float] of Rocq;
    - Python [int] is [Z]; indices and lengths are [nat];
    - Python [str] is [string];
    - a Python exception is a value of [exn]; code that may raise runs in the
      state-and-exception monad [M];
    - the sources of non-determinism (the random draws, the wall clock, the
      fresh identifiers, the availability of the Cassandra tables and the
      keyboard interrupt) are inputs of the functions that consult them. *)

From Stdlib Require Import ZArith Floats Uint63 String Ascii List Lia Bool ZifyNat.
From stdpp Require Import gmap strings list.

Local Open Scope string_scope.
Local Open Scope list_scope.
Local Open Scope Z_scope.

(* ===================================================================== *)
(** * Tables and exceptions                                               *)
(* ===================================================================== *)

(** The seven tables of the keyspace, in the order the streaming loop writes
    them (the list [tables] of step 3 names the same seven). *)
Inductive table : Type :=
  | transactions_by_user
  | transactions_by_category
  | hourly_transactions
  | spending_by_category
  | spending_by_user_category
  | merchant_statistics
  | payment_method_stats.

Definition all_tables : list table :=
  [ transactions_by_user; transactions_by_category; hourly_transactions;
    spending_by_category; spending_by_user_category; merchant_statistics;
    payment_method_stats ].

(** The exceptions the modelled code can raise.  [DriverError t] stands for
    whatever [session.execute] raises when a statement on table [t] fails
    (no host available, timeout, invalid request); [SystemExit] is what
    [exit(1)] raises. *)
Inductive exn : Type :=
  | IndexError
  | ValueError
  | OverflowError
  | DriverError (t : table)
  | KeyboardInterrupt
  | SystemExit (code : Z).

(* ===================================================================== *)
(** * Python primitives used by the generator                             *)
(* ===================================================================== *)

Module Py.

(** ** [float(s)] on decimal text

    The amount column holds decimal text such as [4.97] or [-12.5].
    [float] returns the binary64 value nearest to the decimal.  For a
    decimal whose digits form an integer below [2^53] with at most 18
    fractional digits, the numerator and the power of ten are both binary64
    values (and 63-bit integers), so the nearest value is their quotient,
    which binary64 division rounds correctly.

    The model covers this fragment of what [float] accepts: an optional
    minus sign, digits, and an optional point followed by digits, with at
    least one digit.  It answers [ValueError] for every other text.  That
    is what [float] does for text that is not a number; for the further
    notations [float] accepts (a plus sign, exponents, [inf], [nan],
    surrounding blanks, underscores, longer digit strings) the model does
    not apply. *)

Record decimal : Type := {
  dec_neg : bool;      (* a leading minus sign *)
  dec_digits : Z;      (* all the digits read as one integer *)
  dec_scale : nat      (* how many of them follow the point *)
}.

Definition digit_of (c : ascii) : option Z :=
  let n := Z.of_nat (nat_of_ascii c) in
  if (48 <=? n) && (n <=? 57) then Some (n - 48) else None.

Fixpoint digits_value (s : string) (acc : Z) : option Z :=
  match s with
  | EmptyString => Some acc
  | String c s' =>
      match digit_of c with
      | Some d => digits_value s' (10 * acc + d)
      | None => None
      end
  end.

(** Splits at the first point: the text before it and, when there is one,
    the text after it. *)
Fixpoint split_point (s : string) : string * option string :=
  match s with
  | EmptyString => (EmptyString, None)
  | String c s' =>
      if Ascii.eqb c "."%char then (EmptyString, Some s')
      else let '(a, b) := split_point s' in (String c a, b)
  end.

Definition parse_unsigned (neg : bool) (s : string) : option decimal :=
  let '(ip, fp) := split_point s in
  let fp := match fp with Some f => f | None => EmptyString end in
  if (String.length ip + String.length fp =? 0)%nat then None
  else
    match digits_value (String.append ip fp) 0 with
    | Some n => Some {| dec_neg := neg; dec_digits := n;
                        dec_scale := String.length fp |}
    | None => None
    end.

Definition parse_decimal (s : string) : option decimal :=
  match s with
  | String "-"%char s' => parse_unsigned true s'
  | _ => parse_unsigned false s
  end.

Definition float_of_Z (n : Z) : float := PrimFloat.of_uint63 (Uint63.of_Z n).

Definition float_of_decimal (d : decimal) : float :=
  let q := PrimFloat.div (float_of_Z (dec_digits d))
                         (float_of_Z (10 ^ Z.of_nat (dec_scale d))) in
  if dec_neg d then PrimFloat.opp q else q.

Definition float_of_str (s : string) : exn + float :=
  match parse_decimal s with
  | Some d =>
      if (dec_digits d <? 2 ^ 53) && (dec_scale d <=? 18)%nat
      then inr (float_of_decimal d)
      else inl ValueError
  | None => inl ValueError
  end.

(** ** [int(x)] on a float: truncation towards zero; [int] raises
    [ValueError] on a NaN and [OverflowError] on an infinity.  A finite
    binary64 value is [m * 2^e] with a sign; shifting [m] left by [e]
    (right when [e] is negative) drops the fractional bits. *)
Definition int_of_float (x : float) : exn + Z :=
  match Prim2SF x with
  | S754_nan => inl ValueError
  | S754_infinity _ => inl OverflowError
  | S754_zero _ => inr 0
  | S754_finite s m e =>
      let a := Z.shiftl (Z.pos m) e in
      inr (if s then - a else a)
  end.

(** ** [random.choice(seq)]: [IndexError] on an empty sequence, otherwise
    the element at a random index below the length; [r] is the random
    number the index is reduced from. *)
Definition random_choice {A : Type} (r : nat) (seq : list A) : exn + A :=
  match seq with
  | [] => inl IndexError
  | x :: _ => inr (nth (r mod length seq) seq x)
  end.

(** ** [datetime] and [strftime] *)

Record datetime : Type := {
  year : nat; month : nat; day : nat;
  hour : nat; minute : nat; second : nat; microsecond : nat
}.

(** The fields of a [datetime] object are within these ranges; [year]
    is restricted to the four-digit years, which is where every reading
    of the wall clock lies and where [%Y] prints the same four digits on
    every platform. *)
Definition valid_datetime (t : datetime) : Prop :=
  1000 <= Z.of_nat (year t) <= 9999 /\ (1 <= month t <= 12)%nat /\
  (1 <= day t <= 31)%nat /\ (hour t < 24)%nat /\ (minute t < 60)%nat /\
  (second t < 60)%nat /\ Z.of_nat (microsecond t) < 1000000.

(** The order of [datetime] objects: field by field, most significant
    first. *)
Definition fields (t : datetime) : list nat :=
  [year t; month t; day t; hour t; minute t; second t; microsecond t].

Fixpoint lex_leb (a b : list nat) : bool :=
  match a, b with
  | [], _ => true
  | _ :: _, [] => false
  | x :: a', y :: b' =>
      if (x <? y)%nat then true
      else if (x =? y)%nat then lex_leb a' b' else false
  end.

Definition datetime_leb (t1 t2 : datetime) : bool :=
  lex_leb (fields t1) (fields t2).

Definition digit_char (d : nat) : ascii := ascii_of_nat (48 + d mod 10).

Definition two_digits (n : nat) : string :=
  String (digit_char (n / 10)) (String (digit_char n) EmptyString).

Definition four_digits (n : nat) : string :=
  String (digit_char (n / 1000)) (String (digit_char (n / 100))
    (String (digit_char (n / 10)) (String (digit_char n) EmptyString))).

(** The directives the program uses: [%Y] (year with century), [%m],
    [%d], [%H], [%M], [%S] (two digits, zero padded); [%%] is a percent
    sign.  Any other directive is copied as it stands. *)
Definition directive (t : datetime) (c : ascii) : string :=
  if Ascii.eqb c "%"%char then String c EmptyString
  else if Ascii.eqb c "Y"%char then four_digits (year t)
  else if Ascii.eqb c "m"%char then two_digits (month t)
  else if Ascii.eqb c "d"%char then two_digits (day t)
  else if Ascii.eqb c "H"%char then two_digits (hour t)
  else if Ascii.eqb c "M"%char then two_digits (minute t)
  else if Ascii.eqb c "S"%char then two_digits (second t)
  else String "%"%char (String c EmptyString).

Fixpoint strftime (t : datetime) (fmt : string) : string :=
  match fmt with
  | EmptyString => EmptyString
  | String c rest =>
      if Ascii.eqb c "%"%char then
        match rest with
        | String d rest' => String.append (directive t d) (strftime t rest')
        | EmptyString => String c EmptyString
        end
      else String c (strftime t rest)
  end.

(** [a <= b] on [str]: lexicographic on the code points. *)
Fixpoint str_leb (a b : string) : bool :=
  match a, b with
  | EmptyString, _ => true
  | String _ _, EmptyString => false
  | String x a', String y b' =>
      if (nat_of_ascii x <? nat_of_ascii y)%nat then true
      else if (nat_of_ascii x =? nat_of_ascii y)%nat then str_leb a' b'
      else false
  end.

End Py.


(* ===================================================================== *)
(** * Configuration and helper functions of [demo.py]                     *)
(* ===================================================================== *)

Definition DEMO_USER_ID : string := "User_1".

(** A row of [csv.DictReader]: the four columns the generator reads, which
    the file is taken to have. *)
Record row : Type := {
  row_amount : string;
  row_category : string;
  row_merchant : string;
  row_payment_method : string
}.

(** [merchant[n:]] *)
Fixpoint str_drop (n : nat) (s : string) : string :=
  match n, s with
  | O, _ => s
  | S n', String _ s' => str_drop n' s'
  | S _, EmptyString => EmptyString
  end.

(** [merchant[6:] if merchant.startswith("fraud_") else merchant] *)
Definition clean_merchant (merchant : string) : string :=
  if String.prefix "fraud_" merchant then str_drop 6 merchant else merchant.

(** [dt.strftime('%Y-%m-%d-%H')] *)
Definition get_hour_bucket (dt : Py.datetime) : string :=
  Py.strftime dt "%Y-%m-%d-%H".

(* ===================================================================== *)
(** * Step 5: data loading with reservoir sampling                        *)
(* ===================================================================== *)

(** What the loader sees of the file at [FILE_PATH]: the number of physical
    lines (the first pass, [sum(1 for _ in f)]) and the rows
    [csv.DictReader] yields (the second pass). *)
Record source_file : Type := {
  line_count : nat;
  records : list row
}.

(** The reader takes the first line as the header and every row from at
    least one further line, so a file that was not modified between the
    two passes satisfies this. *)
Definition consistent (f : source_file) : Prop :=
  (length (records f) <= line_count f - 1)%nat.

(** [total_rows = sum(1 for _ in f) - 1] *)
Definition total_rows (f : source_file) : Z := Z.of_nat (line_count f) - 1.

(** [all_transactions[j] = row]: [IndexError] when [j] is out of range. *)
Definition list_assign (l : list row) (j : nat) (r : row) : exn + list row :=
  if (j <? length l)%nat then inr (<[j := r]> l) else inl IndexError.

(** One turn of [for i, row in enumerate(reader)] in the sampling branch;
    [randint i] is the value [random.randint(0, i)] returns at position
    [i]. *)
Definition sample_step (MAX_ROWS_IN_MEMORY : Z) (randint : nat -> nat)
    (all_transactions : list row) (i : nat) (r : row) : exn + list row :=
  if Z.of_nat i <? MAX_ROWS_IN_MEMORY then inr (all_transactions ++ [r])
  else
    let j := randint i in
    if Z.of_nat j <? MAX_ROWS_IN_MEMORY then list_assign all_transactions j r
    else inr all_transactions.

(** The sampling loop from position [i] on. *)
Fixpoint sample_from (MAX_ROWS_IN_MEMORY : Z) (randint : nat -> nat)
    (i : nat) (rows : list row) (all_transactions : list row)
    : exn + list row :=
  match rows with
  | [] => inr all_transactions
  | r :: rows' =>
      match sample_step MAX_ROWS_IN_MEMORY randint all_transactions i r with
      | inr l => sample_from MAX_ROWS_IN_MEMORY randint (S i) rows' l
      | inl e => inl e
      end
  end.

(** Step 5 as a whole; [None] is a path at which no file exists. *)
Definition load_data (file : option source_file) (MAX_ROWS_IN_MEMORY : Z)
    (randint : nat -> nat) : exn + list row :=
  match file with
  | None => inl (SystemExit 1)
  | Some f =>
      if total_rows f >? MAX_ROWS_IN_MEMORY
      then sample_from MAX_ROWS_IN_MEMORY randint 0 (records f) []
      else inr (records f)
  end.

(* ===================================================================== *)
(** * The keyspace                                                        *)
(* ===================================================================== *)

(** The statements of the streaming loop with their bound values: the three
    prepared INSERTs and the four counter UPDATEs.  The first argument of an
    UPDATE is the value added to [total_amount]; [transaction_count] always
    gets [+ 1]. *)
Inductive statement : Type :=
  | insert_txn_by_user (user_id : string) (transaction_time : Py.datetime)
      (transaction_id : N) (amount : float)
      (category merchant payment_method : string)
  | insert_txn_by_category (user_id category : string)
      (transaction_time : Py.datetime) (transaction_id : N) (amount : float)
      (merchant : string)
  | insert_hourly (hour_bucket : string) (transaction_time : Py.datetime)
      (transaction_id : N) (user_id : string) (amount : float)
      (category : string)
  | update_spending_by_category (added : Z) (category : string)
  | update_spending_by_user_category (added : Z) (user_id category : string)
  | update_merchant_statistics (added : Z) (merchant : string)
  | update_payment_method_stats (added : Z) (payment_method : string).

Definition table_of (s : statement) : table :=
  match s with
  | insert_txn_by_user _ _ _ _ _ _ _ => transactions_by_user
  | insert_txn_by_category _ _ _ _ _ _ => transactions_by_category
  | insert_hourly _ _ _ _ _ _ => hourly_transactions
  | update_spending_by_category _ _ => spending_by_category
  | update_spending_by_user_category _ _ _ => spending_by_user_category
  | update_merchant_statistics _ _ => merchant_statistics
  | update_payment_method_stats _ _ => payment_method_stats
  end.

(** The merchant a statement carries, for the tables with a merchant
    column. *)
Definition merchant_of (s : statement) : option string :=
  match s with
  | insert_txn_by_user _ _ _ _ _ m _ => Some m
  | insert_txn_by_category _ _ _ _ _ m => Some m
  | update_merchant_statistics _ m => Some m
  | _ => None
  end.

(** The two COUNTER columns of a counter table, as unbounded integers
    (Cassandra keeps them in 64 bits). *)
Record counter : Type := { total_amount : Z; transaction_count : Z }.

(** [SET total_amount = total_amount + added, transaction_count =
    transaction_count + 1 WHERE key]: a counter that does not exist yet
    counts from zero. *)
Definition counter_at {K : Type} `{Countable K} (m : gmap K counter) (k : K)
    : counter :=
  match m !! k with
  | Some c => c
  | None => {| total_amount := 0; transaction_count := 0 |}
  end.

Definition counter_update {K : Type} `{Countable K} (added : Z) (k : K)
    (m : gmap K counter) : gmap K counter :=
  <[ k := {| total_amount := total_amount (counter_at m k) + added;
             transaction_count := transaction_count (counter_at m k) + 1 |} ]> m.

(** The seven tables.  A log table is kept as the INSERTs that wrote it,
    oldest first; a counter table maps its key to its counters. *)
Record database : Type := {
  rows_transactions_by_user : list statement;
  rows_transactions_by_category : list statement;
  rows_hourly_transactions : list statement;
  cnt_spending_by_category : gmap string counter;
  cnt_spending_by_user_category : gmap (string * string) counter;
  cnt_merchant_statistics : gmap string counter;
  cnt_payment_method_stats : gmap string counter
}.

(** The keyspace after step 3: every table dropped and created again. *)
Definition empty_database : database :=
  {| rows_transactions_by_user := [];
     rows_transactions_by_category := [];
     rows_hourly_transactions := [];
     cnt_spending_by_category := ∅;
     cnt_spending_by_user_category := ∅;
     cnt_merchant_statistics := ∅;
     cnt_payment_method_stats := ∅ |}.

(** The effect of a statement that Cassandra accepts. *)
Definition apply_statement (s : statement) (d : database) : database :=
  match s with
  | insert_txn_by_user _ _ _ _ _ _ _ =>
      {| rows_transactions_by_user := rows_transactions_by_user d ++ [s];
         rows_transactions_by_category := rows_transactions_by_category d;
         rows_hourly_transactions := rows_hourly_transactions d;
         cnt_spending_by_category := cnt_spending_by_category d;
         cnt_spending_by_user_category := cnt_spending_by_user_category d;
         cnt_merchant_statistics := cnt_merchant_statistics d;
         cnt_payment_method_stats := cnt_payment_method_stats d |}
  | insert_txn_by_category _ _ _ _ _ _ =>
      {| rows_transactions_by_user := rows_transactions_by_user d;
         rows_transactions_by_category := rows_transactions_by_category d ++ [s];
         rows_hourly_transactions := rows_hourly_transactions d;
         cnt_spending_by_category := cnt_spending_by_category d;
         cnt_spending_by_user_category := cnt_spending_by_user_category d;
         cnt_merchant_statistics := cnt_merchant_statistics d;
         cnt_payment_method_stats := cnt_payment_method_stats d |}
  | insert_hourly _ _ _ _ _ _ =>
      {| rows_transactions_by_user := rows_transactions_by_user d;
         rows_transactions_by_category := rows_transactions_by_category d;
         rows_hourly_transactions := rows_hourly_transactions d ++ [s];
         cnt_spending_by_category := cnt_spending_by_category d;
         cnt_spending_by_user_category := cnt_spending_by_user_category d;
         cnt_merchant_statistics := cnt_merchant_statistics d;
         cnt_payment_method_stats := cnt_payment_method_stats d |}
  | update_spending_by_category added category =>
      {| rows_transactions_by_user := rows_transactions_by_user d;
         rows_transactions_by_category := rows_transactions_by_category d;
         rows_hourly_transactions := rows_hourly_transactions d;
         cnt_spending_by_category :=
           counter_update added category (cnt_spending_by_category d);
         cnt_spending_by_user_category := cnt_spending_by_user_category d;
         cnt_merchant_statistics := cnt_merchant_statistics d;
         cnt_payment_method_stats := cnt_payment_method_stats d |}
  | update_spending_by_user_category added user_id category =>
      {| rows_transactions_by_user := rows_transactions_by_user d;
         rows_transactions_by_category := rows_transactions_by_category d;
         rows_hourly_transactions := rows_hourly_transactions d;
         cnt_spending_by_category := cnt_spending_by_category d;
         cnt_spending_by_user_category :=
           counter_update added (user_id, category)
             (cnt_spending_by_user_category d);
         cnt_merchant_statistics := cnt_merchant_statistics d;
         cnt_payment_method_stats := cnt_payment_method_stats d |}
  | update_merchant_statistics added merchant =>
      {| rows_transactions_by_user := rows_transactions_by_user d;
         rows_transactions_by_category := rows_transactions_by_category d;
         rows_hourly_transactions := rows_hourly_transactions d;
         cnt_spending_by_category := cnt_spending_by_category d;
         cnt_spending_by_user_category := cnt_spending_by_user_category d;
         cnt_merchant_statistics :=
           counter_update added merchant (cnt_merchant_statistics d);
         cnt_payment_method_stats := cnt_payment_method_stats d |}
  | update_payment_method_stats added payment_method =>
      {| rows_transactions_by_user := rows_transactions_by_user d;
         rows_transactions_by_category := rows_transactions_by_category d;
         rows_hourly_transactions := rows_hourly_transactions d;
         cnt_spending_by_category := cnt_spending_by_category d;
         cnt_spending_by_user_category := cnt_spending_by_user_category d;
         cnt_merchant_statistics := cnt_merchant_statistics d;
         cnt_payment_method_stats :=
           counter_update added payment_method (cnt_payment_method_stats d) |}
  end.

(* ===================================================================== *)
(** * Step 6: the streaming loop                                          *)
(* ===================================================================== *)

(** The state the loop works on: the keyspace, the statements handed to
    [session.execute] so far (accepted or not), and the variable
    [transaction_count]. *)
Record world : Type := {
  db : database;
  submitted : list statement;
  emitted : Z
}.

Definition initial_world : world :=
  {| db := empty_database; submitted := []; emitted := 0 |}.

(** Computations that read and write the [world] and may raise. *)
Definition M (A : Type) : Type := world -> (exn + A) * world.

Definition ret {A : Type} (a : A) : M A := fun w => (inr a, w).

Definition raise {A : Type} (e : exn) : M A := fun w => (inl e, w).

Definition bind {A B : Type} (c : M A) (k : A -> M B) : M B :=
  fun w =>
    match c w with
    | (inr a, w') => k a w'
    | (inl e, w') => (inl e, w')
    end.

(** A pure computation that may raise. *)
Definition lift {A : Type} (r : exn + A) : M A :=
  match r with
  | inr a => ret a
  | inl e => raise e
  end.

Notation "x <- c ;; k" := (bind c (fun x => k))
  (at level 100, c at next level, right associativity).
Notation "c ;;; k" := (bind c (fun _ => k))
  (at level 100, right associativity).

(** What one turn of the loop takes from its environment: the random number
    behind [random.choice], the reading of [datetime.now()], the value of
    [uuid.uuid4()], the tables on which [session.execute] fails during this
    turn, and whether Ctrl+C arrives during the [time.sleep] that ends it. *)
Record tick : Type := {
  pick : nat;
  now : Py.datetime;
  uuid4 : N;
  down : table -> bool;
  interrupt : bool
}.

(** [session.execute(statement, values)]: the statement is handed to the
    driver; the call raises when its table is unavailable and otherwise the
    statement takes effect. *)
Definition session_execute (e : tick) (s : statement) : M unit :=
  fun w =>
    let w1 := {| db := db w; submitted := submitted w ++ [s];
                 emitted := emitted w |} in
    if down e (table_of s) then (inl (DriverError (table_of s)), w1)
    else (inr tt, {| db := apply_statement s (db w1);
                     submitted := submitted w1; emitted := emitted w1 |}).

(** [transaction_count += 1] *)
Definition count_transaction : M unit :=
  fun w => (inr tt, {| db := db w; submitted := submitted w;
                       emitted := emitted w + 1 |}).

(** [time.sleep(STREAM_DELAY)] *)
Definition sleep (e : tick) : M unit :=
  if interrupt e then raise KeyboardInterrupt else ret tt.

(** The body of [while True:].  The values of a statement are evaluated
    just before its [session.execute], so [int(amount * 100)] is computed
    anew for each of the four counters.  The lines printed by the body are
    not modelled. *)
Definition iteration (all_transactions : list row) (e : tick) : M unit :=
  row <- lift (Py.random_choice (pick e) all_transactions) ;;
  let txn_time := now e in
  let txn_id := uuid4 e in
  amount <- lift (Py.float_of_str (row_amount row)) ;;
  let category := row_category row in
  let merchant := clean_merchant (row_merchant row) in
  let payment_method := row_payment_method row in
  let hour_bucket := get_hour_bucket txn_time in
  session_execute e (insert_txn_by_user DEMO_USER_ID txn_time txn_id amount
                       category merchant payment_method) ;;;
  session_execute e (insert_txn_by_category DEMO_USER_ID category txn_time
                       txn_id amount merchant) ;;;
  session_execute e (insert_hourly hour_bucket txn_time txn_id DEMO_USER_ID
                       amount category) ;;;
  c4 <- lift (Py.int_of_float (amount * 100)%float) ;;
  session_execute e (update_spending_by_category c4 category) ;;;
  c5 <- lift (Py.int_of_float (amount * 100)%float) ;;
  session_execute e (update_spending_by_user_category c5 DEMO_USER_ID
                       category) ;;;
  c6 <- lift (Py.int_of_float (amount * 100)%float) ;;
  session_execute e (update_merchant_statistics c6 merchant) ;;;
  c7 <- lift (Py.int_of_float (amount * 100)%float) ;;
  session_execute e (update_payment_method_stats c7 payment_method) ;;;
  count_transaction ;;;
  sleep e.

(** Where the program is after the environment has supplied finitely many
    turns. *)
Inductive run : Type :=
  | Streaming (w : world)          (* still inside [while True:] *)
  | Stopped (w : world)            (* [except KeyboardInterrupt:] ran *)
  | Crashed (e : exn) (w : world)  (* the exception left the program *).

(** [try: while True: ... except KeyboardInterrupt: ...]: the handler
    encloses the loop, and it is the only one. *)
Fixpoint stream (all_transactions : list row) (ticks : list tick) (w : world)
    : run :=
  match ticks with
  | [] => Streaming w
  | e :: ticks' =>
      match iteration all_transactions e w with
      | (inr _, w') => stream all_transactions ticks' w'
      | (inl KeyboardInterrupt, w') => Stopped w'
      | (inl ex, w') => Crashed ex w'
      end
  end.

(** Steps 5 and 6 in sequence, from the freshly created keyspace. *)
Definition main (file : option source_file) (MAX_ROWS_IN_MEMORY : Z)
    (randint : nat -> nat) (ticks : list tick) : run :=
  match load_data file MAX_ROWS_IN_MEMORY randint with
  | inr all_transactions => stream all_transactions ticks initial_world
  | inl e => Crashed e initial_world
  end.

(* ===================================================================== *)
(** * The hourly query of [dashboard.py]                                  *)
(* ===================================================================== *)

Module Dashboard.

(** [current_hour = datetime.now().strftime('%Y-%m-%d-%H')] *)
Definition current_hour (now : Py.datetime) : string :=
  Py.strftime now "%Y-%m-%d-%H".

Definition in_partition (key : string) (s : statement) : bool :=
  match s with
  | insert_hourly hour_bucket _ _ _ _ _ => String.eqb hour_bucket key
  | _ => false
  end.

(** The partition that [SELECT * FROM hourly_transactions WHERE
    hour_bucket = %s LIMIT 100] reads its (at most 100) rows from. *)
Definition hourly_partition (d : database) (now : Py.datetime)
    : list statement :=
  List.filter (in_partition (current_hour now)) (rows_hourly_transactions d).

End Dashboard.

(* ===================================================================== *)
(** * Reference notions and sample data                                   *)
(* ===================================================================== *)

(** An amount expressed in integer minor units (cents), as the
    specification words it: the decimal times one hundred, exactly.  Defined
    for decimal text with at most two fractional digits. *)
Definition minor_units (s : string) : option Z :=
  match Py.parse_decimal s with
  | Some d =>
      if (Py.dec_scale d <=? 2)%nat
      then Some ((if Py.dec_neg d then -1 else 1) * Py.dec_digits d
                 * 10 ^ Z.of_nat (2 - Py.dec_scale d))
      else None
  | None => None
  end.

(** What a sequence of attempts reaches when it ends at the first element
    that stops it: the elements before that one, and that one. *)
Fixpoint reached {A : Type} (stop : A -> bool) (l : list A) : list A :=
  match l with
  | [] => []
  | x :: l' => x :: (if stop x then [] else reached stop l')
  end.

(** The seven statements of one turn, in the order of the loop body, for
    the row [r] drawn, its amount [a] as a float and [c = int(a * 100)]. *)
Definition event_statements (e : tick) (r : row) (a : float) (c : Z)
    : list statement :=
  let category := row_category r in
  let merchant := clean_merchant (row_merchant r) in
  let payment_method := row_payment_method r in
  [ insert_txn_by_user DEMO_USER_ID (now e) (uuid4 e) a category merchant
      payment_method;
    insert_txn_by_category DEMO_USER_ID category (now e) (uuid4 e) a merchant;
    insert_hourly (get_hour_bucket (now e)) (now e) (uuid4 e) DEMO_USER_ID a
      category;
    update_spending_by_category c category;
    update_spending_by_user_category c DEMO_USER_ID category;
    update_merchant_statistics c merchant;
    update_payment_method_stats c payment_method ].

(** Statements executed one after the other. *)
Fixpoint execute_all (e : tick) (ss : list statement) : M unit :=
  match ss with
  | [] => ret tt
  | s :: ss' => session_execute e s ;;; execute_all e ss'
  end.


(** The world a run has reached. *)
Definition world_of (r : run) : world :=
  match r with
  | Streaming w => w
  | Stopped w => w
  | Crashed _ w => w
  end.





(** Where a statement with a merchant can be found: among the statements
    handed to Cassandra and among the rows of the two log tables that have
    a merchant column. *)
Definition recorded (w : world) (s : statement) : Prop :=
  In s (submitted w) \/
  In s (rows_transactions_by_user (db w)) \/
  In s (rows_transactions_by_category (db w)).

(** [int(float(row['amount']) * 100)], the value a turn adds to the
    totals for the row it drew. *)
Definition cents_of (r : row) : exn + Z :=
  match Py.float_of_str (row_amount r) with
  | inr a => Py.int_of_float (a * 100)%float
  | inl ex => inl ex
  end.

Definition counter_plus (c1 c2 : counter) : counter :=
  {| total_amount := total_amount c1 + total_amount c2;
     transaction_count := transaction_count c1 + transaction_count c2 |}.

(** The events, each a row with its cent value, that satisfy [p], summed
    and counted. *)
Fixpoint tally (p : row -> bool) (events : list (row * Z)) : counter :=
  match events with
  | [] => {| total_amount := 0; transaction_count := 0 |}
  | (r, c) :: events' =>
      if p r
      then counter_plus {| total_amount := c; transaction_count := 1 |}
             (tally p events')
      else tally p events'
  end.

(** Keyspace [d'] is keyspace [d] with the events tallied into the four
    counter tables, each under its own key. *)
Definition tallied (d d' : database) (events : list (row * Z)) : Prop :=
  (forall k : string,
     counter_at (cnt_spending_by_category d') k
     = counter_plus (counter_at (cnt_spending_by_category d) k)
         (tally (fun r => bool_decide (row_category r = k)) events)) /\
  (forall k : string * string,
     counter_at (cnt_spending_by_user_category d') k
     = counter_plus (counter_at (cnt_spending_by_user_category d) k)
         (tally (fun r => bool_decide ((DEMO_USER_ID, row_category r) = k))
            events)) /\
  (forall k : string,
     counter_at (cnt_merchant_statistics d') k
     = counter_plus (counter_at (cnt_merchant_statistics d) k)
         (tally (fun r => bool_decide (clean_merchant (row_merchant r) = k))
            events)) /\
  (forall k : string,
     counter_at (cnt_payment_method_stats d') k
     = counter_plus (counter_at (cnt_payment_method_stats d) k)
         (tally (fun r => bool_decide (row_payment_method r = k)) events)).


(** The change of a counter table under one UPDATE of key [key]. *)
Definition counter_step {K : Type} `{Countable K} (m m' : gmap K counter)
    (key : K) (added : Z) : Prop :=
  forall k : K,
    counter_at m' k =
      if decide (k = key)
      then {| total_amount := total_amount (counter_at m k) + added;
              transaction_count := transaction_count (counter_at m k) + 1 |}
      else counter_at m k.

Definition all_up : table -> bool := fun _ => false.

#[global] Instance table_eq_dec : EqDecision table.
Proof. solve_decision. Defined.

Definition only_down (t : table) : table -> bool :=
  fun t' => bool_decide (t' = t).

Definition noon : Py.datetime :=
  {| Py.year := 2024; Py.month := 3; Py.day := 9; Py.hour := 12;
     Py.minute := 30; Py.second := 15; Py.microsecond := 0 |}.

(** A turn during which every table is available and nobody interrupts. *)
Definition calm (n : nat) : tick :=
  {| pick := n; now := noon; uuid4 := N.of_nat n; down := all_up;
     interrupt := false |}.

(** A turn during which table [t] is unavailable. *)
Definition outage (t : table) (n : nat) : tick :=
  {| pick := n; now := noon; uuid4 := N.of_nat n; down := only_down t;
     interrupt := false |}.

Definition purchase_29c : row :=
  {| row_amount := "0.29"; row_category := "grocery_pos";
     row_merchant := "fraud_Acme"; row_payment_method := "credit_card" |}.

Definition refund_5 : row :=
  {| row_amount := "-5.00"; row_category := "grocery_pos";
     row_merchant := "fraud_Acme"; row_payment_method := "credit_card" |}.

(** [float("0.29")] *)
Definition amount_29c : float :=
  Py.float_of_decimal
    {| Py.dec_neg := false; Py.dec_digits := 29; Py.dec_scale := 2 |}.

(** A file that holds the header line and nothing else. *)
Definition header_only : source_file := {| line_count := 1; records := [] |}.

(* ===================================================================== *)
(** * Further code of [demo.py] and [dashboard.py]                        *)
(* ===================================================================== *)

(** ** [str.replace] and [str.title]

    [str.title] turns the first letter of every run of letters into upper
    case and the other letters of the run into lower case; a character that
    is not a letter ends the run.  The model knows the letters of ASCII,
    which is where it agrees with Python: the properties below are stated
    for ASCII text. *)
Module PyStr.

Definition is_lower (c : ascii) : bool :=
  (97 <=? nat_of_ascii c)%nat && (nat_of_ascii c <=? 122)%nat.

Definition is_upper (c : ascii) : bool :=
  (65 <=? nat_of_ascii c)%nat && (nat_of_ascii c <=? 90)%nat.

Definition upper (c : ascii) : ascii :=
  if is_lower c then ascii_of_nat (nat_of_ascii c - 32) else c.

Definition lower (c : ascii) : ascii :=
  if is_upper c then ascii_of_nat (nat_of_ascii c + 32) else c.

Fixpoint is_ascii (s : string) : bool :=
  match s with
  | EmptyString => true
  | String c s' => (nat_of_ascii c <? 128)%nat && is_ascii s'
  end.

(** [s.replace(old, new)] for one-character [old] and [new]. *)
Fixpoint replace_char (old new : ascii) (s : string) : string :=
  match s with
  | EmptyString => EmptyString
  | String c s' =>
      String (if Ascii.eqb c old then new else c) (replace_char old new s')
  end.

(** The loop of [str.title], with its flag [previous_is_cased]. *)
Fixpoint title_from (previous_is_cased : bool) (s : string) : string :=
  match s with
  | EmptyString => EmptyString
  | String c s' =>
      if is_lower c then
        String (if previous_is_cased then c else upper c) (title_from true s')
      else if is_upper c then
        String (if previous_is_cased then lower c else c) (title_from true s')
      else String c (title_from false s')
  end.

Definition title (s : string) : string := title_from false s.

(** [c in s] for a character [c]. *)
Fixpoint contains (c : ascii) (s : string) : bool :=
  match s with
  | EmptyString => false
  | String c' s' => Ascii.eqb c' c || contains c s'
  end.

End PyStr.

(** [category.replace("_", " ").title()] ([demo.py]) *)
Definition format_category (category : string) : string :=
  PyStr.title (PyStr.replace_char "_" " " category).

(** Step 1 of [demo.py]: [while True: try: connect; break; except:
    retry_count += 1; time.sleep(5)].  [attempts] tells, attempt by attempt,
    whether [Cluster(...).connect()] succeeds; the loop is either through,
    with its [retry_count], or has used up the attempts told and is still
    going round. *)
Inductive connection : Type :=
  | Connected (retry_count : nat)
  | Waiting (retry_count : nat).

Fixpoint connect_loop (attempts : list bool) (retry_count : nat)
    : connection :=
  match attempts with
  | [] => Waiting retry_count
  | true :: _ => Connected retry_count
  | false :: attempts' => connect_loop attempts' (S retry_count)
  end.

(** The helpers, the connection and the bookkeeping of [dashboard.py].  A
    value read from a TEXT column is a string or [None]. *)
Module DashboardHelpers.

(** [if not category: return ""] and then as the generator does. *)
Definition format_category (category : option string) : string :=
  match category with
  | None => EmptyString
  | Some EmptyString => EmptyString
  | Some c => PyStr.title (PyStr.replace_char "_" " " c)
  end.

(** [if isinstance(merchant, str) and merchant.startswith("fraud_"):
    return merchant[6:]], and [return merchant] otherwise. *)
Definition clean_merchant (merchant : option string) : option string :=
  match merchant with
  | Some m =>
      if String.prefix "fraud_" m then Some (str_drop 6 m) else Some m
  | None => None
  end.

(** [hosts = [os.environ.get('CASSANDRA_HOST', 'cassandra'), '127.0.0.1',
    'localhost']] *)
Definition hosts (CASSANDRA_HOST : option string) : list string :=
  [ match CASSANDRA_HOST with Some h => h | None => "cassandra" end;
    "127.0.0.1"; "localhost" ].

(** [get_session]: the first host of the list on which connecting and
    selecting the keyspace both succeed ([accepts]), and [None] when the
    list is used up. *)
Fixpoint first_accepting (accepts : string -> bool) (hs : list string)
    : option string :=
  match hs with
  | [] => None
  | h :: hs' => if accepts h then Some h else first_accepting accepts hs'
  end.

Definition get_session (CASSANDRA_HOST : option string)
    (accepts : string -> bool) : option string :=
  first_accepting accepts (hosts CASSANDRA_HOST).

(** [st.session_state]: the identifier last seen on top of the feed and
    the number shown beside the transaction count. *)
Record session_state : Type := {
  last_txn_id : option string;
  txn_count : nat
}.

Definition fresh_state : session_state :=
  {| last_txn_id := None; txn_count := 0 |}.

(** One refresh; [latest_id] is [None] when the query returned no row. *)
Definition track (st : session_state) (latest_id : option string)
    : session_state :=
  match latest_id with
  | None => st
  | Some id =>
      if decide (last_txn_id st = Some id) then st
      else {| last_txn_id := Some id; txn_count := S (txn_count st) |}
  end.

Definition refreshes (st : session_state) (seen : list (option string))
    : session_state :=
  fold_left track seen st.

End DashboardHelpers.

(** ** Notions the further properties are stated with *)

(** The elements a sequence of attempts gets through before the first one
    that stops it. *)
Fixpoint accepted {A : Type} (stop : A -> bool) (l : list A) : list A :=
  match l with
  | [] => []
  | x :: l' => if stop x then [] else x :: accepted stop l'
  end.

(** Two clock readings within the same hour of the same day. *)
Definition same_hour (t1 t2 : Py.datetime) : Prop :=
  Py.year t1 = Py.year t2 /\ Py.month t1 = Py.month t2 /\
  Py.day t1 = Py.day t2 /\ Py.hour t1 = Py.hour t2.

(** What the summary prints as [Total Writes]. *)
Definition total_writes (w : world) : Z := emitted w * 7.

(** The count and the keyspace are in step: seven statements handed over
    and one row in each log table for every transaction counted. *)
Definition in_step (w : world) : Prop :=
  Z.of_nat (length (submitted w)) = total_writes w /\
  Z.of_nat (length (rows_transactions_by_user (db w))) = emitted w /\
  Z.of_nat (length (rows_transactions_by_category (db w))) = emitted w /\
  Z.of_nat (length (rows_hourly_transactions (db w))) = emitted w.

(** Two keyspaces with the same counters under every key. *)
Definition same_counters (d d' : database) : Prop :=
  (forall k : string,
     counter_at (cnt_spending_by_category d) k
     = counter_at (cnt_spending_by_category d') k) /\
  (forall k : string * string,
     counter_at (cnt_spending_by_user_category d) k
     = counter_at (cnt_spending_by_user_category d') k) /\
  (forall k : string,
     counter_at (cnt_merchant_statistics d) k
     = counter_at (cnt_merchant_statistics d') k) /\
  (forall k : string,
     counter_at (cnt_payment_method_stats d) k
     = counter_at (cnt_payment_method_stats d') k).

(** The partition that the feed query of the dashboard, [SELECT * FROM
    transactions_by_user WHERE user_id='User_1' LIMIT 30], reads its (at
    most 30) rows from. *)
Definition in_user_partition (user : string) (s : statement) : bool :=
  match s with
  | insert_txn_by_user user_id _ _ _ _ _ _ => String.eqb user_id user
  | _ => false
  end.

Definition feed_partition (d : database) : list statement :=
  List.filter (in_user_partition "User_1") (rows_transactions_by_user d).

(** The row a turn draws. *)
Definition drawn (ws : list row) (e : tick) : exn + row :=
  Py.random_choice (pick e) ws.

(* ===================================================================== *)
(** * Properties of the loader                                            *)
(* ===================================================================== *)

Section Sampler.

Variable cap : Z.
Variable randint : nat -> nat.

Lemma sample_from_fills (rows : list row) :
  forall (i : nat) (ws : list row),
    Z.of_nat (i + length rows) <= cap ->
    sample_from cap randint i rows ws = inr (ws ++ rows).
Proof.
  induction rows as [|r rows IH]; intros i ws Hle; simpl in *.
  - by rewrite app_nil_r.
  - unfold sample_step.
    destruct (Z.ltb_spec (Z.of_nat i) cap) as [_|Hge]; [|lia].
    rewrite IH by lia. by rewrite <- app_assoc.
Qed.

Lemma sample_step_append (ws : list row) (i : nat) (r : row) :
  Z.of_nat i < cap -> sample_step cap randint ws i r = inr (ws ++ [r]).
Proof.
  intros Hlt. unfold sample_step.
  by destruct (Z.ltb_spec (Z.of_nat i) cap); [|lia].
Qed.

Lemma sample_step_replace (ws : list row) (i : nat) (r : row) :
  Z.of_nat (length ws) = Z.min (Z.of_nat i) cap ->
  cap <= Z.of_nat i ->
  sample_step cap randint ws i r = inr ws \/
  exists j : nat, (j < length ws)%nat /\
    sample_step cap randint ws i r = inr (<[j := r]> ws).
Proof.
  intros Hlen Hge. unfold sample_step, list_assign.
  destruct (Z.ltb_spec (Z.of_nat i) cap) as [Hlt|_]; [lia|].
  destruct (Z.ltb_spec (Z.of_nat (randint i)) cap) as [Hj|_]; [|by left].
  right. exists (randint i).
  assert (Hin : (randint i < length ws)%nat) by lia.
  split; [exact Hin|].
  by destruct (Nat.ltb_spec (randint i) (length ws)); [|lia].
Qed.

Lemma sample_step_size (ws : list row) (i : nat) (r : row) :
  Z.of_nat (length ws) = Z.min (Z.of_nat i) cap ->
  exists ws' : list row,
    sample_step cap randint ws i r = inr ws' /\
    Z.of_nat (length ws') = Z.min (Z.of_nat (S i)) cap.
Proof.
  intros Hlen.
  destruct (Z.lt_ge_cases (Z.of_nat i) cap) as [Hlt|Hge].
  - exists (ws ++ [r]). split; [by apply sample_step_append|].
    rewrite length_app. simpl. lia.
  - destruct (sample_step_replace ws i r Hlen Hge) as [E|(j & Hj & E)].
    + exists ws. split; [exact E|lia].
    + exists (<[j := r]> ws). split; [exact E|].
      rewrite length_insert. lia.
Qed.

Lemma sample_from_size (rows : list row) :
  forall (i : nat) (ws : list row),
    Z.of_nat (length ws) = Z.min (Z.of_nat i) cap ->
    exists ws' : list row,
      sample_from cap randint i rows ws = inr ws' /\
      Z.of_nat (length ws') = Z.min (Z.of_nat (i + length rows)) cap.
Proof.
  induction rows as [|r rows IH]; intros i ws Hlen; simpl.
  - exists ws. split; [done|]. by rewrite Nat.add_0_r.
  - destruct (sample_step_size ws i r Hlen) as (ws1 & E & Hlen1).
    rewrite E. destruct (IH (S i) ws1 Hlen1) as (ws' & E' & Hlen').
    exists ws'. split; [exact E'|].
    rewrite Hlen'. f_equal. lia.
Qed.

Lemma load_data_size (f : source_file) :
  0 <= cap -> consistent f ->
  exists ws : list row,
    load_data (Some f) cap randint = inr ws /\
    Z.of_nat (length ws) <= cap.
Proof.
  intros Hcap Hf. unfold load_data, total_rows, consistent in *.
  destruct (Z.gtb_spec (Z.of_nat (line_count f) - 1) cap) as [Hbig|Hsmall].
  - destruct (sample_from_size (records f) 0 []) as (ws & E & Hlen).
    { simpl. lia. }
    exists ws. split; [exact E|lia].
  - exists (records f). split; [done|lia].
Qed.

End Sampler.

(** C5.  Whatever the capacity and the random draws, a source with no more
    records than the capacity is loaded whole and in its own order. *)
Theorem small_source_loaded_whole (cap : Z) (randint : nat -> nat)
    (f : source_file) :
  Z.of_nat (length (records f)) <= cap ->
  load_data (Some f) cap randint = inr (records f).
Proof.
  intros Hle. unfold load_data.
  destruct (total_rows f >? cap); [|done].
  by apply (sample_from_fills cap randint (records f) 0 []).
Qed.

Lemma small_source_loaded_whole_witness :
  load_data (Some {| line_count := 3; records := [purchase_29c; refund_5] |})
    2 (fun _ => 0%nat)
  = inr [purchase_29c; refund_5].
Proof.
  apply (small_source_loaded_whole 2 (fun _ => 0%nat)
           {| line_count := 3; records := [purchase_29c; refund_5] |}).
  simpl. lia.
Defined.

(** C6.  For a capacity [cap >= 0] and a file whose rows each take a line,
    the working set never holds more than [cap] records: not after any
    number [k] of rows read, and not at the end.  In the sampling loop the
    rows at positions below [cap] are appended, and a row at a later
    position either replaces a stored row or is dropped, so the size stays
    where it is. *)
Theorem working_set_within_capacity (cap : Z) (randint : nat -> nat)
    (f : source_file) :
  0 <= cap -> consistent f ->
  (forall k : nat,
     exists ws : list row,
       load_data (Some {| line_count := line_count f;
                          records := take k (records f) |}) cap randint
       = inr ws /\
       Z.of_nat (length ws) <= cap) /\
  (forall (ws : list row) (i : nat) (r : row),
     Z.of_nat (length ws) = Z.min (Z.of_nat i) cap ->
     (Z.of_nat i < cap ->
        sample_step cap randint ws i r = inr (ws ++ [r])) /\
     (cap <= Z.of_nat i ->
        sample_step cap randint ws i r = inr ws \/
        exists j : nat, (j < length ws)%nat /\
          sample_step cap randint ws i r = inr (<[j := r]> ws))) /\
  (exists ws : list row,
     load_data (Some f) cap randint = inr ws /\
     Z.of_nat (length ws) <= cap).
Proof.
  intros Hcap Hf. split; [|split].
  - intros k. apply load_data_size; [exact Hcap|].
    unfold consistent in *. simpl. rewrite length_take. lia.
  - intros ws i r Hlen. split.
    + apply sample_step_append.
    + by apply sample_step_replace.
  - by apply load_data_size.
Qed.

Lemma working_set_within_capacity_witness :
  exists ws : list row,
    load_data (Some {| line_count := 4;
                       records := [purchase_29c; refund_5; purchase_29c] |})
      2 (fun _ => 1%nat) = inr ws /\
    Z.of_nat (length ws) <= 2.
Proof.
  apply (working_set_within_capacity 2 (fun _ => 1%nat)
           {| line_count := 4;
              records := [purchase_29c; refund_5; purchase_29c] |}).
  - lia.
  - unfold consistent. simpl. lia.
Defined.

(** C4, as stated, fails: a source without records is loaded, as the empty
    working set, and the loader raises nothing. *)
Lemma empty_source_is_loaded :
  load_data (Some header_only) 50000 (fun _ => 0%nat) = inr [] /\
  ~ (exists e : exn,
       load_data (Some header_only) 50000 (fun _ => 0%nat) = inl e).
Proof.
  split; [reflexivity|]. intros [e He]. discriminate He.
Qed.

(** C4, amended.  The loader leaves the program with status 1 when no file
    exists at the path.  A source that yields no record is loaded as the
    empty working set; the program then fails at the first draw of the
    streaming loop, with [IndexError], before any statement is handed to
    Cassandra. *)
Theorem load_failure_modes (cap : Z) (randint : nat -> nat) :
  load_data None cap randint = inl (SystemExit 1) /\
  (forall f : source_file,
     records f = [] ->
     load_data (Some f) cap randint = inr [] /\
     forall (e : tick) (ticks : list tick),
       main (Some f) cap randint (e :: ticks)
       = Crashed IndexError initial_world).
Proof.
  split; [reflexivity|]. intros f Hf.
  assert (Hload : load_data (Some f) cap randint = inr []).
  { unfold load_data. rewrite Hf. by destruct (total_rows f >? cap). }
  split; [exact Hload|]. intros e ticks. unfold main. by rewrite Hload.
Qed.

Lemma load_failure_modes_witness :
  load_data (Some header_only) 50000 (fun _ => 0%nat) = inr [] /\
  forall (e : tick) (ticks : list tick),
    main (Some header_only) 50000 (fun _ => 0%nat) (e :: ticks)
    = Crashed IndexError initial_world.
Proof.
  apply (load_failure_modes 50000 (fun _ => 0%nat)). reflexivity.
Defined.

(* ===================================================================== *)
(** * Properties of the helper functions                                  *)
(* ===================================================================== *)

Lemma clean_merchant_strips (name : string) :
  clean_merchant (String.append "fraud_" name) = name.
Proof.
  unfold clean_merchant. simpl. by destruct name.
Qed.

Lemma clean_merchant_keeps (merchant : string) :
  String.prefix "fraud_" merchant = false -> clean_merchant merchant = merchant.
Proof. intros H. unfold clean_merchant. by rewrite H. Qed.

Ltac divmod_lia := zify; Z.div_mod_to_equations; lia.

Lemma nat_of_digit_char (d : nat) :
  nat_of_ascii (Py.digit_char d) = (48 + d mod 10)%nat.
Proof.
  unfold Py.digit_char. apply nat_ascii_embedding.
  pose proof (Nat.mod_upper_bound d 10). lia.
Qed.

(** Comparing two texts that start with a digit compares the digits first. *)
Lemma str_leb_digit (a b : nat) (s s' : string) :
  Py.str_leb (String (Py.digit_char a) s) (String (Py.digit_char b) s')
  = if (a mod 10 <? b mod 10)%nat then true
    else if (a mod 10 =? b mod 10)%nat then Py.str_leb s s' else false.
Proof.
  cbn [Py.str_leb]. rewrite !nat_of_digit_char.
  reflexivity.
Qed.

Lemma append_String (c : ascii) (s s' : string) :
  String.append (String c s) s' = String c (String.append s s').
Proof. reflexivity. Qed.

Lemma append_empty (s : string) : String.append EmptyString s = s.
Proof. reflexivity. Qed.

Lemma str_leb_two_digits (m1 m2 : nat) (s1 s2 : string) :
  (m1 < 100)%nat -> (m2 < 100)%nat ->
  Py.str_leb (String.append (Py.two_digits m1) s1)
             (String.append (Py.two_digits m2) s2)
  = if (m1 <? m2)%nat then true
    else if (m1 =? m2)%nat then Py.str_leb s1 s2 else false.
Proof.
  intros H1 H2. unfold Py.two_digits. rewrite !append_String, !append_empty.
  rewrite !str_leb_digit.
  repeat match goal with
         | |- context [(?x <? ?y)%nat] => destruct (Nat.ltb_spec x y)
         | |- context [(?x =? ?y)%nat] => destruct (Nat.eqb_spec x y)
         end; try reflexivity; exfalso; divmod_lia.
Qed.

Lemma str_leb_four_digits (y1 y2 : nat) (s1 s2 : string) :
  Z.of_nat y1 <= 9999 -> Z.of_nat y2 <= 9999 ->
  Py.str_leb (String.append (Py.four_digits y1) s1)
             (String.append (Py.four_digits y2) s2)
  = if (y1 <? y2)%nat then true
    else if (y1 =? y2)%nat then Py.str_leb s1 s2 else false.
Proof.
  intros H1 H2. unfold Py.four_digits. rewrite !append_String, !append_empty.
  rewrite !str_leb_digit.
  repeat match goal with
         | |- context [(?x <? ?y)%nat] => destruct (Nat.ltb_spec x y)
         | |- context [(?x =? ?y)%nat] => destruct (Nat.eqb_spec x y)
         end; try reflexivity; exfalso; divmod_lia.
Qed.

Lemma str_leb_same_head (c : ascii) (s s' : string) :
  Py.str_leb (String c s) (String c s') = Py.str_leb s s'.
Proof.
  cbn [Py.str_leb]. by rewrite Nat.ltb_irrefl, Nat.eqb_refl.
Qed.

Lemma get_hour_bucket_fields (t : Py.datetime) :
  get_hour_bucket t
  = String.append (Py.four_digits (Py.year t))
      (String "-" (String.append (Py.two_digits (Py.month t))
        (String "-" (String.append (Py.two_digits (Py.day t))
          (String "-" (String.append (Py.two_digits (Py.hour t))
                         EmptyString)))))).
Proof. reflexivity. Qed.

(** C9.  For wall-clock readings [t1 <= t2] the hour bucket of [t1] is
    lexicographically at most the hour bucket of [t2]. *)
Theorem hour_bucket_sorts_by_time (t1 t2 : Py.datetime) :
  Py.valid_datetime t1 -> Py.valid_datetime t2 ->
  Py.datetime_leb t1 t2 = true ->
  Py.str_leb (get_hour_bucket t1) (get_hour_bucket t2) = true.
Proof.
  intros (Hy1 & Hm1 & Hd1 & Hh1 & _) (Hy2 & Hm2 & Hd2 & Hh2 & _) Hle.
  rewrite !get_hour_bucket_fields.
  rewrite str_leb_four_digits, str_leb_same_head by lia.
  rewrite str_leb_two_digits, str_leb_same_head by lia.
  rewrite str_leb_two_digits, str_leb_same_head by lia.
  rewrite str_leb_two_digits by lia.
  unfold Py.datetime_leb, Py.fields in Hle. cbn [Py.lex_leb] in Hle.
  repeat match goal with
         | |- context [(?x <? ?y)%nat] => destruct (Nat.ltb_spec x y)
         | |- context [(?x =? ?y)%nat] => destruct (Nat.eqb_spec x y)
         end; try reflexivity; exfalso;
  repeat match type of Hle with
         | context [(?x <? ?y)%nat] => destruct (Nat.ltb_spec x y)
         | context [(?x =? ?y)%nat] => destruct (Nat.eqb_spec x y)
         end; try discriminate Hle; lia.
Qed.

Lemma hour_bucket_sorts_by_time_witness :
  Py.str_leb (get_hour_bucket noon)
    (get_hour_bucket
       {| Py.year := 2024; Py.month := 10; Py.day := 1; Py.hour := 0;
          Py.minute := 0; Py.second := 0; Py.microsecond := 0 |}) = true.
Proof.
  apply hour_bucket_sorts_by_time.
  - unfold Py.valid_datetime, noon. simpl. lia.
  - unfold Py.valid_datetime. simpl. lia.
  - reflexivity.
Defined.

(** C10.  The partition key the generator writes for a row of
    [hourly_transactions] and the key the dashboard queries are the same
    function of the clock reading, so a row written at reading [t] lies in
    the partition the dashboard reads at reading [t]. *)
Theorem writer_and_reader_agree_on_hour (t : Py.datetime) :
  get_hour_bucket t = Dashboard.current_hour t /\
  forall (d : database) (id : N) (user : string) (a : float)
         (category : string),
    In (insert_hourly (get_hour_bucket t) t id user a category)
       (rows_hourly_transactions d) ->
    In (insert_hourly (get_hour_bucket t) t id user a category)
       (Dashboard.hourly_partition d t).
Proof.
  split; [reflexivity|]. intros d id user a category Hin.
  unfold Dashboard.hourly_partition. apply filter_In. split; [exact Hin|].
  unfold Dashboard.in_partition. apply String.eqb_refl.
Qed.

Lemma writer_and_reader_agree_on_hour_witness :
  In (insert_hourly (get_hour_bucket noon) noon 0%N DEMO_USER_ID amount_29c
        "grocery_pos")
     (Dashboard.hourly_partition
        (db (snd (iteration [purchase_29c] (calm 0) initial_world))) noon).
Proof.
  apply (proj2 (writer_and_reader_agree_on_hour noon)).
  vm_compute. left. reflexivity.
Defined.

(* ===================================================================== *)
(** * Properties of the counters                                          *)
(* ===================================================================== *)

Section Counters.

Context {K : Type} `{Countable K}.

Lemma counter_update_step (added : Z) (key : K) (m : gmap K counter) :
  counter_step m (counter_update added key m) key added.
Proof.
  intros k. unfold counter_update. unfold counter_at at 1.
  destruct (decide (k = key)) as [->|Hne].
  - by rewrite lookup_insert_eq.
  - by rewrite lookup_insert_ne.
Qed.







End Counters.








(* ===================================================================== *)
(** * Properties of the fan-out                                           *)
(* ===================================================================== *)


Lemma reached_incl {A : Type} (stop : A -> bool) (l : list A) (x : A) :
  In x (reached stop l) -> In x l.
Proof.
  induction l as [|y l IH]; [intros []|]. simpl.
  intros [->|Hin]; [by left|]. right.
  destruct (stop y); [destruct Hin|by apply IH].
Qed.



(** The laws of [M] the proofs below use, stated at a world. *)
Lemma bind_ret {A B : Type} (a : A) (k : A -> M B) (w : world) :
  (x <- ret a ;; k x) w = k a w.
Proof. reflexivity. Qed.

Lemma bind_raise {A B : Type} (ex : exn) (k : A -> M B) (w : world) :
  (x <- raise ex ;; k x) w = raise ex w.
Proof. reflexivity. Qed.

Lemma bind_assoc {A B C : Type} (c : M A) (f : A -> M B) (g : B -> M C)
    (w : world) :
  (y <- (x <- c ;; f x) ;; g y) w = (x <- c ;; y <- f x ;; g y) w.
Proof. unfold bind. by destruct (c w) as [[ex|a] w']. Qed.

Lemma bind_ext {A B : Type} (c : M A) (f g : A -> M B) (w : world) :
  (forall (a : A) (w' : world), f a w' = g a w') ->
  (x <- c ;; f x) w = (x <- c ;; g x) w.
Proof. intros Hfg. unfold bind. by destruct (c w) as [[ex|a] w']. Qed.

Ltac next_statement :=
  rewrite ?bind_ret;
  lazymatch goal with
  | |- _ = bind (bind _ _) _ _ =>
      rewrite bind_assoc; apply bind_ext; intros [] ?
  end.

Section FanOut.

Variable e : tick.

Let stops (s : statement) : bool := down e (table_of s).

Lemma execute_all_submitted (ss : list statement) :
  forall w : world,
    submitted (snd (execute_all e ss w)) = submitted w ++ reached stops ss.
Proof.
  induction ss as [|s ss IH]; intros w.
  - simpl. by rewrite app_nil_r.
  - cbn [execute_all reached]. unfold bind, session_execute. fold (stops s).
    destruct (stops s); [reflexivity|].
    rewrite IH. simpl. by rewrite <- app_assoc.
Qed.

Lemma execute_all_result (ss : list statement) :
  forall w : world,
    fst (execute_all e ss w)
    = match find stops ss with
      | Some s => inl (DriverError (table_of s))
      | None => inr tt
      end.
Proof.
  induction ss as [|s ss IH]; intros w; [reflexivity|].
  cbn [execute_all find]. unfold bind, session_execute. fold (stops s).
  destruct (stops s); [reflexivity|]. apply IH.
Qed.



Lemma execute_all_up (ss : list statement) :
  (forall t : table, down e t = false) ->
  forall w : world,
    execute_all e ss w
    = (inr tt, {| db := fold_left (fun d s => apply_statement s d) ss (db w);
                  submitted := submitted w ++ ss;
                  emitted := emitted w |}).
Proof.
  intros Hup. induction ss as [|s ss IH]; intros w.
  - destruct w. simpl. by rewrite app_nil_r.
  - cbn [execute_all]. unfold bind, session_execute. rewrite Hup.
    rewrite IH. simpl. by rewrite <- app_assoc.
Qed.

(** The loop body, once the row is drawn and its amount converts, is the
    seven statements in order, then the count and the sleep. *)
Lemma iteration_fan_out (ws : list row) (w : world) (r : row) (a : float)
    (c : Z) :
  Py.random_choice (pick e) ws = inr r ->
  Py.float_of_str (row_amount r) = inr a ->
  Py.int_of_float (a * 100)%float = inr c ->
  iteration ws e w
  = (execute_all e (event_statements e r a c) ;;; count_transaction ;;;
     sleep e) w.
Proof.
  intros Hr Ha Hc. unfold iteration.
  rewrite Hr. cbn [lift]. rewrite bind_ret, Ha. cbn [lift].
  rewrite bind_ret, Hc. cbn [lift event_statements execute_all].
  do 7 next_statement. reflexivity.
Qed.

(** When [int(amount * 100)] raises, the three INSERTs have been tried. *)
Lemma iteration_no_cents (ws : list row) (w : world) (r : row) (a : float)
    (ex : exn) :
  Py.random_choice (pick e) ws = inr r ->
  Py.float_of_str (row_amount r) = inr a ->
  Py.int_of_float (a * 100)%float = inl ex ->
  iteration ws e w
  = (execute_all e (firstn 3 (event_statements e r a 0)) ;;; raise ex) w.
Proof.
  intros Hr Ha Hc. unfold iteration.
  rewrite Hr. cbn [lift]. rewrite bind_ret, Ha. cbn [lift].
  rewrite bind_ret, Hc. cbn [lift event_statements execute_all firstn].
  do 3 next_statement. reflexivity.
Qed.

Lemma iteration_no_row (ws : list row) (w : world) (ex : exn) :
  Py.random_choice (pick e) ws = inl ex -> iteration ws e w = (inl ex, w).
Proof.
  intros Hr. unfold iteration, bind, lift, raise. by rewrite Hr.
Qed.

Lemma iteration_no_amount (ws : list row) (w : world) (r : row) (ex : exn) :
  Py.random_choice (pick e) ws = inr r ->
  Py.float_of_str (row_amount r) = inl ex ->
  iteration ws e w = (inl ex, w).
Proof.
  intros Hr Ha. unfold iteration, bind, lift, ret, raise. by rewrite Hr, Ha.
Qed.

(** What follows the statements leaves the keyspace and the statements
    handed over as they are. *)
Lemma after_statements (c : M unit) (w : world) :
  let k := (c ;;; count_transaction ;;; sleep e) in
  db (snd (k w)) = db (snd (c w)) /\
  submitted (snd (k w)) = submitted (snd (c w)) /\
  fst (k w) = match fst (c w) with
              | inl ex => inl ex
              | inr _ => if interrupt e then inl KeyboardInterrupt else inr tt
              end.
Proof.
  unfold bind, count_transaction, sleep, raise, ret.
  destruct (c w) as [[ex|u] w1]; [done|].
  by destruct (interrupt e).
Qed.

End FanOut.

Lemma event_tables (e : tick) (r : row) (a : float) (c : Z) :
  map table_of (event_statements e r a c) = all_tables.
Proof. reflexivity. Qed.




(* ===================================================================== *)
(** * Properties of the streaming loop                                    *)
(* ===================================================================== *)

Lemma stream_app (ws : list row) (before after : list tick) :
  forall w w1 : world,
    stream ws before w = Streaming w1 ->
    stream ws (before ++ after) w = stream ws after w1.
Proof.
  induction before as [|e before IH]; intros w w1 Hrun; simpl in *.
  - by injection Hrun as ->.
  - destruct (iteration ws e w) as [[ex|u] w'].
    + destruct ex; discriminate Hrun.
    + by apply IH.
Qed.

(** A table that is down makes the turn end with the driver's exception. *)
Lemma outage_raises (ws : list row) (e : tick) (w : world) (r : row)
    (a : float) (c : Z) (t : table) :
  Py.random_choice (pick e) ws = inr r ->
  Py.float_of_str (row_amount r) = inr a ->
  Py.int_of_float (a * 100)%float = inr c ->
  down e t = true ->
  exists t' : table,
    down e t' = true /\ fst (iteration ws e w) = inl (DriverError t').
Proof.
  intros Hr Ha Hc Hdown. rewrite (iteration_fan_out e ws w r a c Hr Ha Hc).
  destruct (after_statements e (execute_all e (event_statements e r a c)) w)
    as (_ & _ & Hres).
  rewrite Hres, execute_all_result.
  destruct (find _ (event_statements e r a c)) as [s|] eqn:Hfind.
  - apply find_some in Hfind as [_ Hs]. by exists (table_of s).
  - exfalso.
    assert (Hin : In t (map table_of (event_statements e r a c))).
    { rewrite event_tables. destruct t; simpl; tauto. }
    apply in_map_iff in Hin as (s & <- & Hin).
    pose proof (find_none _ _ Hfind s Hin) as Hs. simpl in Hs. congruence.
Qed.

(** C3, as stated, fails: an outage of [hourly_transactions] during the
    first turn ends the run with the driver's exception; the second turn
    never takes place, and the three statements of the first one are all
    that Cassandra was handed. *)
Lemma stream_does_not_survive_outage :
  exists w : world,
    stream [purchase_29c] [outage hourly_transactions 0; calm 0] initial_world
    = Crashed (DriverError hourly_transactions) w /\
    map table_of (submitted w)
    = [transactions_by_user; transactions_by_category; hourly_transactions].
Proof.
  eexists. split; [vm_compute; reflexivity|vm_compute; reflexivity].
Qed.

(** C3, amended.  The loop has no handler for the errors of a turn: the
    first turn that raises ends the loop, whatever turns the environment
    had in store.  [KeyboardInterrupt] reaches the handler around the loop
    and stops the program in an orderly way; every other exception,
    that of an unavailable table included, leaves the program. *)
Theorem stream_ends_at_first_error :
  (forall (ws : list row) (before after : list tick) (e : tick)
          (w w1 w2 : world) (ex : exn),
     stream ws before w = Streaming w1 ->
     iteration ws e w1 = (inl ex, w2) ->
     stream ws (before ++ e :: after) w
     = match ex with
       | KeyboardInterrupt => Stopped w2
       | _ => Crashed ex w2
       end) /\
  (forall (ws : list row) (e : tick) (w : world) (r : row) (a : float)
          (c : Z) (t : table),
     Py.random_choice (pick e) ws = inr r ->
     Py.float_of_str (row_amount r) = inr a ->
     Py.int_of_float (a * 100)%float = inr c ->
     down e t = true ->
     exists t' : table,
       down e t' = true /\ fst (iteration ws e w) = inl (DriverError t')).
Proof.
  split.
  - intros ws before after e w w1 w2 ex Hrun Hturn.
    rewrite (stream_app ws before (e :: after) w w1 Hrun).
    simpl. rewrite Hturn. by destruct ex.
  - intros ws e w r a c t. apply outage_raises.
Qed.

Lemma stream_ends_at_first_error_witness :
  stream [purchase_29c]
    ([calm 0] ++ outage spending_by_category 0 :: [calm 0; calm 0])
    initial_world
  = Crashed (DriverError spending_by_category)
      (snd (iteration [purchase_29c] (outage spending_by_category 0)
              (snd (iteration [purchase_29c] (calm 0) initial_world)))) /\
  exists t' : table,
    down (outage spending_by_category 0) t' = true /\
    fst (iteration [purchase_29c] (outage spending_by_category 0)
           initial_world) = inl (DriverError t').
Proof.
  split.
  - apply (proj1 stream_ends_at_first_error [purchase_29c] [calm 0]
             [calm 0; calm 0] (outage spending_by_category 0) initial_world
             (snd (iteration [purchase_29c] (calm 0) initial_world))
             (snd (iteration [purchase_29c] (outage spending_by_category 0)
                     (snd (iteration [purchase_29c] (calm 0) initial_world))))
             (DriverError spending_by_category)).
    + vm_compute. reflexivity.
    + vm_compute. reflexivity.
  - apply (proj2 stream_ends_at_first_error [purchase_29c]
             (outage spending_by_category 0) initial_world purchase_29c
             amount_29c 28 spending_by_category).
    + reflexivity.
    + vm_compute. reflexivity.
    + vm_compute. reflexivity.
    + reflexivity.
Defined.

(* ===================================================================== *)
(** * Counters across a run                                               *)
(* ===================================================================== *)

Lemma random_choice_In {A : Type} (n : nat) (l : list A) (x : A) :
  Py.random_choice n l = inr x -> In x l.
Proof.
  unfold Py.random_choice. destruct l as [|y l]; [discriminate|].
  intros Hx.
  assert (Hn : (n mod length (y :: l) < length (y :: l))%nat)
    by (apply Nat.mod_upper_bound; discriminate).
  injection Hx as Hx. rewrite <- Hx. exact (nth_In (y :: l) y Hn).
Qed.









(* ===================================================================== *)
(** * The merchant written by a turn                                      *)
(* ===================================================================== *)

Lemma execute_all_recorded (e : tick) (ss : list statement) :
  forall (w : world) (s : statement),
    recorded (snd (execute_all e ss w)) s -> recorded w s \/ In s ss.
Proof.
  unfold recorded. induction ss as [|s0 ss IH]; intros w s Hrec.
  - by left.
  - cbn [execute_all] in Hrec. unfold bind, session_execute in Hrec.
    destruct (down e (table_of s0)).
    + simpl in Hrec. rewrite in_app_iff in Hrec. simpl in *. tauto.
    + apply IH in Hrec. cbn [db submitted] in Hrec.
      rewrite in_app_iff in Hrec.
      destruct s0; simpl in *; rewrite ?in_app_iff in Hrec; simpl in *;
        tauto.
Qed.

Lemma event_statements_merchant (e : tick) (r : row) (a : float) (c : Z)
    (s : statement) (m : string) :
  In s (event_statements e r a c) ->
  merchant_of s = Some m ->
  m = clean_merchant (row_merchant r).
Proof.
  intros Hin Hm. simpl in Hin.
  repeat (destruct Hin as [<-|Hin]; [simpl in Hm; congruence|]).
  destruct Hin.
Qed.

(** C8.  [clean_merchant] removes the prefix [fraud_] from a merchant that
    starts with it and returns any other merchant as it is; [fraud_Acme]
    becomes [Acme].  Every statement with a merchant that a turn hands to
    Cassandra, and every row with a merchant that it adds to a log table,
    carries the cleaned merchant of the row drawn. *)
Theorem merchant_prefix_stripped :
  (forall name : string,
     clean_merchant (String.append "fraud_" name) = name) /\
  (forall merchant : string,
     String.prefix "fraud_" merchant = false ->
     clean_merchant merchant = merchant) /\
  clean_merchant "fraud_Acme" = "Acme" /\
  (forall (ws : list row) (e : tick) (w : world) (s : statement)
          (m : string),
     recorded (snd (iteration ws e w)) s ->
     ~ recorded w s ->
     merchant_of s = Some m ->
     exists r : row,
       Py.random_choice (pick e) ws = inr r /\
       m = clean_merchant (row_merchant r)).
Proof.
  split; [exact clean_merchant_strips|].
  split; [exact clean_merchant_keeps|].
  split; [reflexivity|].
  intros ws e w s m Hnew Hold Hm.
  destruct (Py.random_choice (pick e) ws) as [ex|r] eqn:Hr.
  { rewrite (iteration_no_row e ws w ex Hr) in Hnew. by destruct Hold. }
  destruct (Py.float_of_str (row_amount r)) as [ex|a] eqn:Ha.
  { rewrite (iteration_no_amount e ws w r ex Hr Ha) in Hnew.
    by destruct Hold. }
  exists r. split; [reflexivity|].
  destruct (Py.int_of_float (a * 100)%float) as [ex|c] eqn:Hc.
  - rewrite (iteration_no_cents e ws w r a ex Hr Ha Hc) in Hnew.
    assert (Hrec : recorded
                     (snd (execute_all e
                             (firstn 3 (event_statements e r a 0)) w)) s).
    { unfold bind, raise in Hnew.
      by destruct (execute_all e _ w) as [[ex'|u] w1]. }
    apply execute_all_recorded in Hrec as [Hrec|Hin]; [by destruct Hold|].
    apply (event_statements_merchant e r a 0 s m); [|exact Hm].
    simpl in Hin. simpl. tauto.
  - rewrite (iteration_fan_out e ws w r a c Hr Ha Hc) in Hnew.
    destruct (after_statements e
                (execute_all e (event_statements e r a c)) w)
      as (Hdb & Hsub & _).
    unfold recorded in Hnew. rewrite Hdb, Hsub in Hnew.
    apply execute_all_recorded in Hnew as [Hrec|Hin]; [by destruct Hold|].
    by apply (event_statements_merchant e r a c s m).
Qed.

Lemma merchant_prefix_stripped_witness :
  clean_merchant "Acme" = "Acme" /\
  exists r : row,
    Py.random_choice (pick (calm 0)) [purchase_29c] = inr r /\
    "Acme" = clean_merchant (row_merchant r).
Proof.
  split.
  - apply (proj1 (proj2 merchant_prefix_stripped) "Acme"). reflexivity.
  - apply (proj2 (proj2 (proj2 merchant_prefix_stripped)) [purchase_29c]
             (calm 0) initial_world
             (update_merchant_statistics 28 "Acme") "Acme").
    + left. vm_compute. do 5 right. left. reflexivity.
    + unfold recorded. simpl. tauto.
    + reflexivity.
Defined.

(* ===================================================================== *)
(** * The counters after a run without errors                             *)
(* ===================================================================== *)

(** A turn that ends normally drew a row, converted its amount, found every
    table available and executed the seven statements. *)
Lemma iteration_completed (ws : list row) (e : tick) (w w' : world) :
  iteration ws e w = (inr tt, w') ->
  exists (r : row) (a : float) (c : Z),
    Py.random_choice (pick e) ws = inr r /\
    Py.float_of_str (row_amount r) = inr a /\
    Py.int_of_float (a * 100)%float = inr c /\
    (forall t : table, down e t = false) /\
    db w' = fold_left (fun d s => apply_statement s d)
              (event_statements e r a c) (db w).
Proof.
  intros Hturn.
  destruct (Py.random_choice (pick e) ws) as [ex|r] eqn:Hr.
  { rewrite (iteration_no_row e ws w ex Hr) in Hturn. discriminate Hturn. }
  destruct (Py.float_of_str (row_amount r)) as [ex|a] eqn:Ha.
  { rewrite (iteration_no_amount e ws w r ex Hr Ha) in Hturn.
    discriminate Hturn. }
  destruct (Py.int_of_float (a * 100)%float) as [ex|c] eqn:Hc.
  { rewrite (iteration_no_cents e ws w r a ex Hr Ha Hc) in Hturn.
    unfold bind, raise in Hturn.
    destruct (execute_all e _ w) as [[ex'|u] w1]; discriminate Hturn. }
  rewrite (iteration_fan_out e ws w r a c Hr Ha Hc) in Hturn.
  destruct (after_statements e
              (execute_all e (event_statements e r a c)) w)
    as (Hdb & _ & Hres).
  rewrite Hturn in Hdb, Hres. cbn [fst snd] in Hdb, Hres.
  rewrite execute_all_result in Hres.
  assert (Hup : forall t : table, down e t = false).
  { intros t.
    destruct (find _ (event_statements e r a c)) as [s|] eqn:Hfind;
      [discriminate Hres|].
    assert (Hin : In t (map table_of (event_statements e r a c))).
    { rewrite event_tables. destruct t; simpl; tauto. }
    apply in_map_iff in Hin as (s & <- & Hin).
    exact (find_none _ _ Hfind s Hin). }
  rewrite (execute_all_up e _ Hup) in Hdb.
  exists r, a, c. auto.
Qed.

Lemma tally_step {K : Type} `{Countable K} (m m1 m' : gmap K counter)
    (key : row -> K) (r : row) (c : Z) (events : list (row * Z)) (k : K) :
  counter_step m m1 (key r) c ->
  counter_at m' k
  = counter_plus (counter_at m1 k)
      (tally (fun r' => bool_decide (key r' = k)) events) ->
  counter_at m' k
  = counter_plus (counter_at m k)
      (tally (fun r' => bool_decide (key r' = k)) ((r, c) :: events)).
Proof.
  intros Hstep ->. rewrite (Hstep k). cbn [tally].
  destruct (decide (k = key r)) as [->|Hne].
  - rewrite bool_decide_eq_true_2 by reflexivity.
    unfold counter_plus. simpl. f_equal; lia.
  - rewrite bool_decide_eq_false_2 by congruence. reflexivity.
Qed.

Lemma tallied_nil (d : database) : tallied d d [].
Proof.
  repeat split; intros k; unfold counter_plus; simpl;
    destruct (counter_at _ k); simpl; f_equal; lia.
Qed.

(** What the code stores.  After a run of turns that all ended normally,
    each counter holds, for each key, the number of events with that key
    and the sum of their values [int(float(amount) * 100)]. *)
Lemma counters_after_run (ws : list row) (ticks : list tick) :
  forall w w' : world,
    stream ws ticks w = Streaming w' ->
    exists events : list (row * Z),
      Forall2 (fun e ev => Py.random_choice (pick e) ws = inr (fst ev) /\
                           cents_of (fst ev) = inr (snd ev)) ticks events /\
      tallied (db w) (db w') events.
Proof.
  induction ticks as [|e ticks IH]; intros w w' Hrun; simpl in Hrun.
  - injection Hrun as <-. exists []. split; [constructor|apply tallied_nil].
  - destruct (iteration ws e w) as [[ex|[]] w1] eqn:Hturn.
    { destruct ex; discriminate Hrun. }
    destruct (iteration_completed ws e w w1 Hturn)
      as (r & a & c & Hr & Ha & Hc & Hup & Hdb).
    destruct (IH w1 w' Hrun) as (events & Hall & H1 & H2 & H3 & H4).
    exists ((r, c) :: events). split.
    + constructor; [|exact Hall]. simpl. split; [exact Hr|].
      unfold cents_of. by rewrite Ha.
    + rewrite Hdb in H1, H2, H3, H4.
      cbn [event_statements fold_left apply_statement
           cnt_spending_by_category cnt_spending_by_user_category
           cnt_merchant_statistics cnt_payment_method_stats]
        in H1, H2, H3, H4.
      repeat split; intros k.
      * eapply (tally_step _ _ _ row_category);
          [apply counter_update_step|apply H1].
      * eapply (tally_step _ _ _ (fun r' => (DEMO_USER_ID, row_category r')));
          [apply counter_update_step|apply H2].
      * eapply (tally_step _ _ _ (fun r' => clean_merchant (row_merchant r')));
          [apply counter_update_step|apply H3].
      * eapply (tally_step _ _ _ row_payment_method);
          [apply counter_update_step|apply H4].
Qed.

(* ===================================================================== *)
(** * The stored totals                                                   *)
(* ===================================================================== *)

(** C1: the code at the failing input.  Two events of 0.29 leave
    every counter of their keys at count 2, which is the number of events,
    and at total 56, which is not their sum in cents: 0.29 is 29 cents and
    two of them are 58.  [float("0.29") * 100] is 28.999999999999996 and
    [int] drops the fraction. *)
Theorem cents_are_truncated :
  let w := world_of (stream [purchase_29c] [calm 0; calm 0] initial_world) in
  stream [purchase_29c] [calm 0; calm 0] initial_world = Streaming w /\
  Py.float_of_str "0.29" = inr amount_29c /\
  Py.int_of_float (amount_29c * 100)%float = inr 28 /\
  minor_units "0.29" = Some 29 /\
  counter_at (cnt_spending_by_category (db w)) "grocery_pos"
  = {| total_amount := 56; transaction_count := 2 |} /\
  counter_at (cnt_spending_by_user_category (db w)) ("User_1", "grocery_pos")
  = {| total_amount := 56; transaction_count := 2 |} /\
  counter_at (cnt_merchant_statistics (db w)) "Acme"
  = {| total_amount := 56; transaction_count := 2 |} /\
  counter_at (cnt_payment_method_stats (db w)) "credit_card"
  = {| total_amount := 56; transaction_count := 2 |}.
Proof.
  intros w. subst w.
  split; [vm_compute; reflexivity|].
  split; [vm_compute; reflexivity|].
  split; [vm_compute; reflexivity|].
  split; [vm_compute; reflexivity|].
  split; [vm_compute; reflexivity|].
  split; [vm_compute; reflexivity|].
  split; vm_compute; reflexivity.
Qed.

(* ===================================================================== *)
(** * Further properties of the loader                                    *)
(* ===================================================================== *)

Section SamplerMore.

Variable cap : Z.
Variable randint : nat -> nat.

(** The size the loop keeps: the position, capped by the capacity, and
    zero for a capacity below zero. *)
Let filled (i : nat) : Z := Z.max 0 (Z.min (Z.of_nat i) cap).

Lemma sample_step_total (ws : list row) (i : nat) (r : row) :
  Z.of_nat (length ws) = filled i ->
  exists ws' : list row,
    sample_step cap randint ws i r = inr ws' /\
    Z.of_nat (length ws') = filled (S i).
Proof.
  unfold filled. intros Hlen. unfold sample_step, list_assign.
  destruct (Z.ltb_spec (Z.of_nat i) cap) as [Hlt|Hge].
  - exists (ws ++ [r]). split; [reflexivity|].
    rewrite length_app. simpl. lia.
  - destruct (Z.ltb_spec (Z.of_nat (randint i)) cap) as [Hj|Hj].
    + destruct (Nat.ltb_spec (randint i) (length ws)) as [Hin|Hout];
        [|lia].
      exists (<[randint i := r]> ws). split; [reflexivity|].
      rewrite length_insert. lia.
    + exists ws. split; [reflexivity|]. lia.
Qed.

Lemma sample_from_total (rows : list row) :
  forall (i : nat) (ws : list row),
    Z.of_nat (length ws) = filled i ->
    exists ws' : list row,
      sample_from cap randint i rows ws = inr ws' /\
      Z.of_nat (length ws') = filled (i + length rows).
Proof.
  induction rows as [|r rows IH]; intros i ws Hlen; simpl.
  - exists ws. split; [reflexivity|]. by rewrite Nat.add_0_r.
  - destruct (sample_step_total ws i r Hlen) as (ws1 & E & Hlen1).
    rewrite E. destruct (IH (S i) ws1 Hlen1) as (ws' & E' & Hlen').
    exists ws'. split; [exact E'|].
    rewrite Hlen'. f_equal. lia.
Qed.

(** Whatever a step stores was stored before or is the row at hand. *)
Lemma sample_step_In (ws ws' : list row) (i : nat) (r x : row) :
  sample_step cap randint ws i r = inr ws' ->
  In x ws' -> In x ws \/ x = r.
Proof.
  unfold sample_step, list_assign. intros Hstep Hin.
  destruct (Z.of_nat i <? cap).
  - injection Hstep as <-. apply in_app_iff in Hin as [Hin | [ <- | [] ] ]; auto.
  - destruct (Z.of_nat (randint i) <? cap); [|injection Hstep as <-; auto].
    destruct (Nat.ltb_spec (randint i) (length ws)) as [Hj|Hj];
      [|discriminate Hstep].
    injection Hstep as <-.
    apply list_elem_of_In, list_elem_of_lookup in Hin as [k Hk].
    apply list_lookup_insert_Some in Hk as [(_ & -> & _)|(_ & Hk)];
      [by right|].
    left. apply list_elem_of_In, list_elem_of_lookup. by exists k.
Qed.

Lemma sample_from_In (rows : list row) :
  forall (i : nat) (ws ws' : list row) (x : row),
    sample_from cap randint i rows ws = inr ws' ->
    In x ws' -> In x ws \/ In x rows.
Proof.
  induction rows as [|r rows IH]; intros i ws ws' x Hrun Hin; simpl in Hrun.
  - injection Hrun as <-. by left.
  - destruct (sample_step cap randint ws i r) as [ex|ws1] eqn:Hstep;
      [discriminate Hrun|].
    destruct (IH (S i) ws1 ws' x Hrun Hin) as [Hin1|Hin1].
    + destruct (sample_step_In ws ws1 i r x Hstep Hin1) as [H| -> ].
      * by left.
      * right. by left.
    + right. by right.
Qed.

Lemma insert_elem_of (l : list row) (j : nat) (r x : row) :
  x ∈ <[j := r]> l -> x ∈ l \/ x = r.
Proof.
  intros [k Hk]%list_elem_of_lookup.
  apply list_lookup_insert_Some in Hk as [(_ & -> & _)|(_ & Hk)];
    [by right|].
  left. apply list_elem_of_lookup. by exists k.
Qed.

Lemma insert_NoDup (l : list row) (r : row) :
  forall j : nat, NoDup l -> r ∉ l -> NoDup (<[j := r]> l).
Proof.
  induction l as [|x l IH]; intros j Hnd Hr; [exact Hnd|].
  apply NoDup_cons in Hnd as [Hx Hl].
  apply not_elem_of_cons in Hr as [Hrx Hrl].
  destruct j as [|j]; simpl.
  - apply NoDup_cons. by split.
  - apply NoDup_cons. split; [|by apply IH].
    intros [Hin | -> ]%insert_elem_of; [by apply Hx|by apply Hrx].
Qed.

Lemma sample_step_NoDup (ws ws' : list row) (i : nat) (r : row) :
  sample_step cap randint ws i r = inr ws' ->
  NoDup ws -> ~ In r ws -> NoDup ws'.
Proof.
  unfold sample_step, list_assign. intros Hstep Hnd Hnew.
  destruct (Z.of_nat i <? cap).
  - injection Hstep as <-. apply NoDup_app. repeat split.
    + exact Hnd.
    + intros x Hx ->%list_elem_of_singleton.
      by apply Hnew, list_elem_of_In.
    + apply NoDup_singleton.
  - destruct (Z.of_nat (randint i) <? cap); [|by injection Hstep as <-].
    destruct (randint i <? length ws)%nat; [|discriminate Hstep].
    injection Hstep as <-. apply insert_NoDup; [exact Hnd|].
    intros Hin. by apply Hnew, list_elem_of_In.
Qed.

Lemma sample_from_NoDup (rows : list row) :
  forall (i : nat) (ws ws' : list row),
    sample_from cap randint i rows ws = inr ws' ->
    NoDup ws -> NoDup rows -> (forall x : row, In x ws -> ~ In x rows) ->
    NoDup ws'.
Proof.
  induction rows as [|r rows IH]; intros i ws ws' Hrun Hnd Hrows Hdisj;
    simpl in Hrun.
  - by injection Hrun as <-.
  - destruct (sample_step cap randint ws i r) as [ex|ws1] eqn:Hstep;
      [discriminate Hrun|].
    apply NoDup_cons in Hrows as [Hr Hrows].
    apply (IH (S i) ws1 ws' Hrun).
    + apply (sample_step_NoDup ws ws1 i r Hstep Hnd).
      intros Hin. apply (Hdisj r Hin). by left.
    + exact Hrows.
    + intros x Hx Hin.
      destruct (sample_step_In ws ws1 i r x Hstep Hx) as [Hold| -> ].
      * apply (Hdisj x Hold). by right.
      * by apply Hr, list_elem_of_In.
Qed.

(** The slot a stored row sits in: a row read at a position below the
    capacity sits at that position, a later one at the slot its draw
    named. *)
Lemma sample_step_slot (ws ws' : list row) (i : nat) (r : row) (j : nat)
    (x : row) :
  Z.of_nat (length ws) = filled i ->
  sample_step cap randint ws i r = inr ws' ->
  ws' !! j = Some x ->
  ws !! j = Some x \/
  (x = r /\ ((j = i /\ Z.of_nat i < cap) \/
             (cap <= Z.of_nat i /\ randint i = j))).
Proof.
  unfold filled, sample_step, list_assign. intros Hlen Hstep Hj.
  destruct (Z.ltb_spec (Z.of_nat i) cap) as [Hlt|Hge].
  - injection Hstep as <-.
    apply lookup_app_Some in Hj as [Hj|[Hge Hj]]; [by left|].
    right. destruct (j - length ws)%nat as [|n] eqn:Hn; [|discriminate Hj].
    injection Hj as <-. split; [reflexivity|]. left. split; lia.
  - destruct (Z.of_nat (randint i) <? cap); [|injection Hstep as <-; by left].
    destruct (randint i <? length ws)%nat; [|discriminate Hstep].
    injection Hstep as <-.
    apply list_lookup_insert_Some in Hj as [(-> & -> & _)|(_ & Hj)];
      [|by left].
    right. split; [reflexivity|]. right. by split.
Qed.

Lemma sample_from_slot (rows : list row) :
  forall (i : nat) (ws ws' : list row) (j : nat) (x : row),
    Z.of_nat (length ws) = filled i ->
    sample_from cap randint i rows ws = inr ws' ->
    ws' !! j = Some x ->
    ws !! j = Some x \/
    exists k : nat,
      rows !! k = Some x /\
      ((j = (i + k)%nat /\ Z.of_nat (i + k) < cap) \/
       (cap <= Z.of_nat (i + k) /\ randint (i + k) = j)).
Proof.
  induction rows as [|r rows IH]; intros i ws ws' j x Hlen Hrun Hj;
    simpl in Hrun.
  - injection Hrun as <-. by left.
  - destruct (sample_step_total ws i r Hlen) as (ws1 & Hstep & Hlen1).
    rewrite Hstep in Hrun.
    destruct (IH (S i) ws1 ws' j x Hlen1 Hrun Hj) as [Hj1|(k & Hk & Hslot)].
    + destruct (sample_step_slot ws ws1 i r j x Hlen Hstep Hj1)
        as [Hold|(-> & Hslot)]; [by left|].
      right. exists 0%nat. split; [reflexivity|].
      by rewrite Nat.add_0_r.
    + right. exists (S k). split; [exact Hk|].
      by rewrite <- Nat.add_succ_comm.
Qed.

End SamplerMore.

Lemma loading_total (cap : Z) (randint : nat -> nat) (f : source_file) :
  exists ws : list row, load_data (Some f) cap randint = inr ws.
Proof.
  unfold load_data. destruct (total_rows f >? cap); [|by eexists].
  destruct (sample_from_total cap randint (records f) 0 [])
    as (ws & Hrun & _); [simpl; lia|].
  by exists ws.
Qed.


(** X2.  The working set is as large as the capacity allows: it holds
    [min(N, cap)] rows for a source of [N] records. *)
Theorem working_set_size (cap : Z) (randint : nat -> nat) (f : source_file)
    (ws : list row) :
  0 <= cap -> consistent f ->
  load_data (Some f) cap randint = inr ws ->
  Z.of_nat (length ws) = Z.min (Z.of_nat (length (records f))) cap.
Proof.
  unfold load_data, total_rows, consistent. intros Hcap Hf Hload.
  destruct (Z.gtb_spec (Z.of_nat (line_count f) - 1) cap) as [Hbig|Hsmall].
  - destruct (sample_from_total cap randint (records f) 0 [])
      as (ws' & Hrun & Hlen); [simpl; lia|].
    rewrite Hrun in Hload. injection Hload as <-. simpl in Hlen. lia.
  - injection Hload as <-. lia.
Qed.

Lemma working_set_size_witness :
  Z.of_nat (length [purchase_29c; refund_5])
  = Z.min (Z.of_nat (length [purchase_29c; refund_5; purchase_29c])) 2.
Proof.
  apply (working_set_size 2 (fun _ => 5%nat)
           {| line_count := 4;
              records := [purchase_29c; refund_5; purchase_29c] |}).
  - lia.
  - unfold consistent. simpl. lia.
  - reflexivity.
Defined.

(** X3.  Every slot of the working set holds a record of the source: slot
    [j] holds the record read at position [j], or a record read at a
    position from the capacity on whose draw was [j]. *)
Theorem working_set_slots (cap : Z) (randint : nat -> nat) (f : source_file)
    (ws : list row) (j : nat) (x : row) :
  load_data (Some f) cap randint = inr ws ->
  ws !! j = Some x ->
  exists i : nat,
    records f !! i = Some x /\
    (i = j \/ (cap <= Z.of_nat i /\ randint i = j)).
Proof.
  unfold load_data. intros Hload Hj.
  destruct (total_rows f >? cap).
  - destruct (sample_from_slot cap randint (records f) 0 [] ws j x)
      as [Hnil|(k & Hk & [[-> _]|Hslot])]; try done.
    + simpl. lia.
    + exists k. split; [exact Hk|]. by left.
    + exists k. split; [exact Hk|]. by right.
  - injection Hload as <-. exists j. split; [exact Hj|]. by left.
Qed.

Lemma working_set_slots_witness :
  exists i : nat,
    [purchase_29c; refund_5; purchase_29c] !! i = Some purchase_29c /\
    (i = 1%nat \/ (2 <= Z.of_nat i /\ (fun _ : nat => 1%nat) i = 1%nat)).
Proof.
  apply (working_set_slots 2 (fun _ => 1%nat)
           {| line_count := 4;
              records := [purchase_29c; refund_5; purchase_29c] |}
           [purchase_29c; purchase_29c] 1 purchase_29c).
  - reflexivity.
  - reflexivity.
Defined.

(** X4.  Sampling is without repetition: when no record occurs twice in the
    source, none occurs twice in the working set. *)
Theorem working_set_without_repetition (cap : Z) (randint : nat -> nat)
    (f : source_file) (ws : list row) :
  NoDup (records f) ->
  load_data (Some f) cap randint = inr ws ->
  NoDup ws.
Proof.
  unfold load_data. intros Hnd Hload.
  destruct (total_rows f >? cap); [|by injection Hload as <-].
  apply (sample_from_NoDup cap randint (records f) 0 [] ws Hload);
    [apply NoDup_nil_2|exact Hnd|intros x []].
Qed.

Lemma working_set_without_repetition_witness :
  NoDup [purchase_29c; {| row_amount := "7.00"; row_category := "gas";
                          row_merchant := "Shell";
                          row_payment_method := "cash" |}].
Proof.
  apply (working_set_without_repetition 2 (fun _ => 0%nat)
           {| line_count := 4;
              records := [refund_5; {| row_amount := "7.00";
                                       row_category := "gas";
                                       row_merchant := "Shell";
                                       row_payment_method := "cash" |};
                          purchase_29c] |}).
  - repeat (apply NoDup_cons; split;
            [rewrite ?elem_of_cons; intros H;
             repeat (destruct H as [H|H]; [discriminate H|]);
             by apply elem_of_nil in H|]).
    apply NoDup_nil_2.
  - reflexivity.
Defined.

(** X5.  With a capacity of zero or less nothing is loaded, and the program
    ends at the first draw of the streaming loop with [IndexError], before
    any statement is handed to Cassandra. *)
Theorem no_capacity_no_stream (cap : Z) (randint : nat -> nat)
    (f : source_file) (e : tick) (ticks : list tick) :
  cap <= 0 -> consistent f ->
  load_data (Some f) cap randint = inr [] /\
  main (Some f) cap randint (e :: ticks) = Crashed IndexError initial_world.
Proof.
  intros Hcap Hf.
  assert (Hload : load_data (Some f) cap randint = inr []).
  { unfold load_data, total_rows, consistent in *.
    destruct (Z.gtb_spec (Z.of_nat (line_count f) - 1) cap) as [Hbig|Hsmall].
    - destruct (sample_from_total cap randint (records f) 0 [])
        as (ws & Hrun & Hlen); [simpl; lia|].
      rewrite Hrun. destruct ws; [reflexivity|]. simpl in Hlen. lia.
    - destruct (records f); [reflexivity|]. simpl in Hf. lia. }
  split; [exact Hload|]. unfold main. by rewrite Hload.
Qed.

Lemma no_capacity_no_stream_witness :
  load_data (Some {| line_count := 3; records := [purchase_29c; refund_5] |})
    0 (fun _ => 0%nat) = inr [] /\
  main (Some {| line_count := 3; records := [purchase_29c; refund_5] |})
    0 (fun _ => 0%nat) [calm 0; calm 1]
  = Crashed IndexError initial_world.
Proof.
  apply (no_capacity_no_stream 0 (fun _ => 0%nat)
           {| line_count := 3; records := [purchase_29c; refund_5] |}).
  - lia.
  - unfold consistent. simpl. lia.
Defined.

(* ===================================================================== *)
(** * Properties of the display helpers                                   *)
(* ===================================================================== *)

Lemma letter_cases (c : ascii) :
  (PyStr.is_lower c = true ->
   PyStr.is_upper c = false /\
   PyStr.is_upper (PyStr.upper c) = true /\
   PyStr.is_lower (PyStr.upper c) = false /\
   Ascii.eqb c "_" = false /\
   Ascii.eqb (PyStr.upper c) "_" = false) /\
  (PyStr.is_upper c = true ->
   PyStr.is_lower c = false /\
   PyStr.is_lower (PyStr.lower c) = true /\
   Ascii.eqb c "_" = false /\
   Ascii.eqb (PyStr.lower c) "_" = false).
Proof.
  destruct c as [[] [] [] [] [] [] [] []]; vm_compute;
    split; intros H; first [discriminate H | repeat split].
Qed.

Lemma title_from_idempotent (s : string) :
  forall b : bool,
    PyStr.title_from b (PyStr.title_from b s) = PyStr.title_from b s.
Proof.
  induction s as [|c s IH]; intros b; [reflexivity|].
  cbn [PyStr.title_from].
  destruct (letter_cases c) as [Hlow Hup].
  destruct (PyStr.is_lower c) eqn:Hl.
  - destruct (Hlow eq_refl) as (_ & Hu1 & Hu2 & _).
    destruct b; cbn [PyStr.title_from].
    + by rewrite Hl, IH.
    + by rewrite Hu2, Hu1, IH.
  - destruct (PyStr.is_upper c) eqn:Hu.
    + destruct (Hup eq_refl) as (_ & Hl1 & _).
      destruct b; cbn [PyStr.title_from].
      * by rewrite Hl1, IH.
      * by rewrite Hl, Hu, IH.
    + cbn [PyStr.title_from]. by rewrite Hl, Hu, IH.
Qed.

Lemma replace_title_commute (s : string) :
  forall b : bool,
    PyStr.replace_char "_" " " (PyStr.title_from b s)
    = PyStr.title_from b (PyStr.replace_char "_" " " s).
Proof.
  induction s as [|c s IH]; intros b; [reflexivity|].
  cbn [PyStr.title_from PyStr.replace_char].
  destruct (letter_cases c) as [Hlow Hup].
  destruct (PyStr.is_lower c) eqn:Hl.
  - destruct (Hlow eq_refl) as (_ & _ & _ & Hc & Hcu).
    rewrite Hc. cbn [PyStr.title_from PyStr.replace_char]. rewrite Hl.
    destruct b; by rewrite ?Hc, ?Hcu, IH.
  - destruct (PyStr.is_upper c) eqn:Hu.
    + destruct (Hup eq_refl) as (_ & _ & Hc & Hcl).
      rewrite Hc. cbn [PyStr.title_from PyStr.replace_char]. rewrite Hl, Hu.
      destruct b; by rewrite ?Hc, ?Hcl, IH.
    + cbn [PyStr.replace_char]. destruct (Ascii.eqb c "_") eqn:Hc.
      * cbn [PyStr.title_from].
        change (PyStr.is_lower " ") with false.
        change (PyStr.is_upper " ") with false. cbn iota. by rewrite IH.
      * cbn [PyStr.title_from]. by rewrite Hl, Hu, IH.
Qed.

Lemma replace_char_idempotent (s : string) :
  PyStr.replace_char "_" " " (PyStr.replace_char "_" " " s)
  = PyStr.replace_char "_" " " s.
Proof.
  induction s as [|c s IH]; [reflexivity|].
  cbn [PyStr.replace_char]. rewrite IH.
  by destruct (Ascii.eqb c "_") eqn:Hc; [|rewrite Hc].
Qed.

Lemma replace_char_clears (s : string) :
  PyStr.contains "_" (PyStr.replace_char "_" " " s) = false.
Proof.
  induction s as [|c s IH]; [reflexivity|].
  cbn [PyStr.replace_char PyStr.contains]. rewrite IH.
  by destruct (Ascii.eqb c "_") eqn:Hc; [|rewrite Hc].
Qed.

Lemma title_from_length (s : string) :
  forall b : bool, String.length (PyStr.title_from b s) = String.length s.
Proof.
  induction s as [|c s IH]; intros b; [reflexivity|].
  cbn [PyStr.title_from].
  destruct (PyStr.is_lower c); [|destruct (PyStr.is_upper c)];
    cbn [String.length]; by rewrite IH.
Qed.

Lemma replace_char_length (old new : ascii) (s : string) :
  String.length (PyStr.replace_char old new s) = String.length s.
Proof.
  induction s as [|c s IH]; [reflexivity|].
  cbn [PyStr.replace_char String.length]. by rewrite IH.
Qed.

Lemma contains_replaced (s : string) :
  PyStr.replace_char "_" " " s = s -> PyStr.contains "_" s = false.
Proof. intros <-. apply replace_char_clears. Qed.

(** X6.  For a category in ASCII, [format_category] keeps the length,
    leaves no underscore, and changes nothing when applied to its own
    result; it turns [grocery_pos] into [Grocery Pos]. *)
Theorem format_category_shape :
  (forall category : string,
     PyStr.is_ascii category = true ->
     String.length (format_category category) = String.length category /\
     PyStr.contains "_" (format_category category) = false /\
     format_category (format_category category) = format_category category)
  /\ format_category "grocery_pos" = "Grocery Pos".
Proof.
  split; [|reflexivity]. intros category _. unfold format_category, PyStr.title.
  split; [|split].
  - by rewrite title_from_length, replace_char_length.
  - apply contains_replaced.
    by rewrite replace_title_commute, replace_char_idempotent.
  - by rewrite replace_title_commute, replace_char_idempotent,
         title_from_idempotent.
Qed.

Lemma format_category_shape_witness :
  String.length (format_category "gas_transport")
  = String.length "gas_transport" /\
  PyStr.contains "_" (format_category "gas_transport") = false /\
  format_category (format_category "gas_transport")
  = format_category "gas_transport".
Proof.
  apply (proj1 format_category_shape "gas_transport"). reflexivity.
Defined.

Lemma prefix_empty (m : string) : String.prefix EmptyString m = true.
Proof. by destruct m. Qed.

Lemma prefix_append (p1 p2 : string) :
  forall m : string,
    String.prefix (String.append p1 p2) m
    = String.prefix p1 m && String.prefix p2 (str_drop (String.length p1) m).
Proof.
  induction p1 as [|a p1 IH]; intros m.
  - by rewrite append_empty, prefix_empty.
  - rewrite append_String. destruct m as [|b m]; [reflexivity|].
    cbn [String.prefix String.length str_drop].
    destruct (ascii_dec a b); [apply IH|reflexivity].
Qed.

(** On a string the helpers of the dashboard return what the helpers of
    the generator return; a missing value is shown as the empty text by
    [format_category] and passed on by [clean_merchant]. *)
Lemma dashboard_helpers_agree :
  (forall category : string,
     DashboardHelpers.format_category (Some category)
     = format_category category) /\
  (forall merchant : string,
     DashboardHelpers.clean_merchant (Some merchant)
     = Some (clean_merchant merchant)) /\
  DashboardHelpers.format_category None = EmptyString /\
  DashboardHelpers.clean_merchant None = None.
Proof.
  repeat split.
  - intros category. by destruct category.
  - intros merchant. unfold DashboardHelpers.clean_merchant, clean_merchant.
    by destruct (String.prefix "fraud_" merchant).
Qed.

(** X7.  The dashboard cleans the merchant it reads, which the generator
    cleaned before storing it.  What is shown is what is stored, unless the
    source name carried the prefix twice: then the stored name still starts
    with [fraud_] and the dashboard removes that one too. *)
Theorem merchant_cleaned_twice :
  (forall merchant : string,
     String.prefix "fraud_fraud_" merchant = false ->
     DashboardHelpers.clean_merchant (Some (clean_merchant merchant))
     = Some (clean_merchant merchant)) /\
  (forall name : string,
     clean_merchant (String.append "fraud_fraud_" name)
     = String.append "fraud_" name /\
     DashboardHelpers.clean_merchant
       (Some (clean_merchant (String.append "fraud_fraud_" name)))
     = Some name).
Proof.
  split.
  - intros merchant Htwice.
    change "fraud_fraud_" with (String.append "fraud_" "fraud_") in Htwice.
    rewrite prefix_append in Htwice.
    change (String.length "fraud_") with 6%nat in Htwice.
    unfold DashboardHelpers.clean_merchant, clean_merchant.
    destruct (String.prefix "fraud_" merchant) eqn:Hp.
    + rewrite Bool.andb_true_l in Htwice. by rewrite Htwice.
    + by rewrite Hp.
  - intros name.
    change (String.append "fraud_fraud_" name)
      with (String.append "fraud_" (String.append "fraud_" name)).
    rewrite clean_merchant_strips. split; [reflexivity|].
    unfold DashboardHelpers.clean_merchant.
    change (String.prefix "fraud_" (String.append "fraud_" name))
      with (String.prefix EmptyString name).
    by rewrite prefix_empty.
Qed.

Lemma merchant_cleaned_twice_witness :
  DashboardHelpers.clean_merchant (Some (clean_merchant "fraud_Acme"))
  = Some (clean_merchant "fraud_Acme").
Proof.
  apply (proj1 merchant_cleaned_twice "fraud_Acme"). reflexivity.
Defined.

(* ===================================================================== *)
(** * Properties of the connections and of the dashboard's bookkeeping    *)
(* ===================================================================== *)

Lemma connect_loop_spec (attempts : list bool) :
  forall r : nat,
    match connect_loop attempts r with
    | Connected n =>
        (r <= n)%nat /\ attempts !! (n - r)%nat = Some true /\
        forall i : nat, (i < n - r)%nat -> attempts !! i = Some false
    | Waiting n =>
        n = (r + length attempts)%nat /\
        forall i : nat, (i < length attempts)%nat -> attempts !! i = Some false
    end.
Proof.
  induction attempts as [|[] attempts IH]; intros r; cbn [connect_loop].
  - split; [simpl; lia|]. intros i Hi. simpl in Hi. lia.
  - rewrite Nat.sub_diag. repeat split; [lia|]. intros i Hi. lia.
  - specialize (IH (S r)). destruct (connect_loop attempts (S r)) as [n|n].
    + destruct IH as (Hle & Hn & Hbefore). split; [lia|].
      replace (n - r)%nat with (S (n - S r)) by lia. split; [exact Hn|].
      intros [|i] Hi; [reflexivity|]. apply Hbefore. lia.
    + destruct IH as (-> & Hall). split; [simpl; lia|].
      intros [|i] Hi; [reflexivity|]. apply Hall. simpl in Hi. lia.
Qed.

(** X8.  The generator connects at the first attempt that succeeds, and
    its [retry_count] is then the number of attempts that failed before.
    It never gives up: as long as every attempt fails it keeps trying, one
    retry counted for each. *)
Theorem connect_loop_waits_for_cassandra (attempts : list bool) :
  match connect_loop attempts 0 with
  | Connected n =>
      attempts !! n = Some true /\
      forall i : nat, (i < n)%nat -> attempts !! i = Some false
  | Waiting n =>
      n = length attempts /\
      forall i : nat, (i < length attempts)%nat -> attempts !! i = Some false
  end.
Proof.
  pose proof (connect_loop_spec attempts 0) as Hspec.
  destruct (connect_loop attempts 0) as [n|n].
  - destruct Hspec as (_ & Hn & Hbefore). rewrite Nat.sub_0_r in Hn, Hbefore.
    by split.
  - destruct Hspec as (-> & Hall). by split.
Qed.

Lemma first_accepting_spec (accepts : string -> bool) (hs : list string) :
  match DashboardHelpers.first_accepting accepts hs with
  | Some h =>
      exists k : nat,
        hs !! k = Some h /\ accepts h = true /\
        forall (i : nat) (h' : string),
          (i < k)%nat -> hs !! i = Some h' -> accepts h' = false
  | None => forall h : string, In h hs -> accepts h = false
  end.
Proof.
  induction hs as [|h hs IH]; cbn [DashboardHelpers.first_accepting].
  - intros h [].
  - destruct (accepts h) eqn:Hh.
    + exists 0%nat. repeat split; [exact Hh|]. intros i h' Hi. lia.
    + destruct (DashboardHelpers.first_accepting accepts hs) as [h0|].
      * destruct IH as (k & Hk & Hacc & Hbefore).
        exists (S k). repeat split; [exact Hk|exact Hacc|].
        intros [|i] h' Hi Hlook.
        -- injection Hlook as <-. exact Hh.
        -- apply (Hbefore i h'); [lia|exact Hlook].
      * intros h' [ <- | Hin ]; [exact Hh|by apply IH].
Qed.

(** X9.  The dashboard tries its three hosts once each, the configured one
    first: it connects to the first host that accepts, every host ahead of
    it having refused, and it is left without a session exactly when all
    three refuse. *)
Theorem get_session_takes_first_host (CASSANDRA_HOST : option string)
    (accepts : string -> bool) :
  length (DashboardHelpers.hosts CASSANDRA_HOST) = 3%nat /\
  match DashboardHelpers.get_session CASSANDRA_HOST accepts with
  | Some h =>
      exists k : nat,
        DashboardHelpers.hosts CASSANDRA_HOST !! k = Some h /\
        accepts h = true /\
        forall (i : nat) (h' : string),
          (i < k)%nat ->
          DashboardHelpers.hosts CASSANDRA_HOST !! i = Some h' ->
          accepts h' = false
  | None =>
      forall h : string,
        In h (DashboardHelpers.hosts CASSANDRA_HOST) -> accepts h = false
  end.
Proof.
  split; [reflexivity|]. apply first_accepting_spec.
Qed.

Lemma track_count (st : DashboardHelpers.session_state)
    (latest_id : option string) :
  (DashboardHelpers.txn_count st
   <= DashboardHelpers.txn_count (DashboardHelpers.track st latest_id)
   <= S (DashboardHelpers.txn_count st))%nat.
Proof.
  unfold DashboardHelpers.track. destruct latest_id as [id|]; [|lia].
  destruct (decide (DashboardHelpers.last_txn_id st = Some id)); simpl; lia.
Qed.

(** X10.  The number the dashboard shows beside the transaction count
    grows by at most one per refresh, however many transactions arrived
    since the refresh before, and not at all while the row on top of the
    feed stays the same or the feed is empty. *)
Theorem txn_count_counts_refreshes :
  (forall (st : DashboardHelpers.session_state) (seen : list (option string)),
     (DashboardHelpers.txn_count st
      <= DashboardHelpers.txn_count (DashboardHelpers.refreshes st seen)
      <= DashboardHelpers.txn_count st + length seen)%nat) /\
  (forall (st : DashboardHelpers.session_state) (id : string),
     DashboardHelpers.track
       (DashboardHelpers.track st (Some id)) (Some id)
     = DashboardHelpers.track st (Some id)) /\
  (forall st : DashboardHelpers.session_state,
     DashboardHelpers.track st None = st).
Proof.
  split; [|split].
  - intros st seen. revert st.
    induction seen as [|x seen IH]; intros st; [simpl; lia|].
    unfold DashboardHelpers.refreshes in *. cbn [fold_left length].
    pose proof (track_count st x).
    specialize (IH (DashboardHelpers.track st x)). lia.
  - intros st id. unfold DashboardHelpers.track.
    destruct (decide (DashboardHelpers.last_txn_id st = Some id)) as [He|Hne].
    + by rewrite decide_True.
    + cbn [DashboardHelpers.last_txn_id]. by rewrite decide_True.
  - reflexivity.
Qed.

(* ===================================================================== *)
(** * Further properties of the streaming loop                            *)
(* ===================================================================== *)

Lemma reached_length {A : Type} (stop : A -> bool) (l : list A) :
  (length (reached stop l) <= length l)%nat.
Proof.
  induction l as [|x l IH]; [reflexivity|]. simpl.
  destruct (stop x); simpl; lia.
Qed.

Lemma execute_all_emitted (e : tick) (ss : list statement) :
  forall w : world, emitted (snd (execute_all e ss w)) = emitted w.
Proof.
  induction ss as [|s ss IH]; intros w; [reflexivity|].
  cbn [execute_all]. unfold bind, session_execute.
  destruct (down e (table_of s)); [reflexivity|]. by rewrite IH.
Qed.

Lemma execute_all_db (e : tick) (ss : list statement) :
  forall w : world,
    db (snd (execute_all e ss w))
    = fold_left (fun d s => apply_statement s d)
        (accepted (fun s => down e (table_of s)) ss) (db w).
Proof.
  induction ss as [|s ss IH]; intros w; [reflexivity|].
  cbn [execute_all accepted]. unfold bind, session_execute.
  destruct (down e (table_of s)); [reflexivity|]. by rewrite IH.
Qed.

Lemma random_choice_exn {A : Type} (n : nat) (l : list A) (ex : exn) :
  Py.random_choice n l = inl ex -> ex = IndexError.
Proof.
  unfold Py.random_choice. destruct l; intros Hex; [|discriminate Hex].
  by injection Hex as <-.
Qed.

Lemma float_of_str_exn (s : string) (ex : exn) :
  Py.float_of_str s = inl ex -> ex = ValueError.
Proof.
  unfold Py.float_of_str. intros Hex.
  destruct (Py.parse_decimal s) as [d|]; [|by injection Hex as <-].
  destruct (_ && _); [discriminate Hex|by injection Hex as <-].
Qed.

Lemma int_of_float_exn (x : float) (ex : exn) :
  Py.int_of_float x = inl ex -> ex = ValueError \/ ex = OverflowError.
Proof.
  unfold Py.int_of_float. intros Hex.
  destruct (Prim2SF x); try discriminate Hex; injection Hex as <-; auto.
Qed.

(** The two ways a turn can go: it writes its seven statements and counts
    the transaction, or it raises something other than the interrupt,
    counts nothing and has handed over at most seven statements. *)
Lemma iteration_cases (ws : list row) (e : tick) (w : world) :
  (exists (r : row) (a : float) (c : Z),
     Py.random_choice (pick e) ws = inr r /\
     Py.float_of_str (row_amount r) = inr a /\
     Py.int_of_float (a * 100)%float = inr c /\
     (forall t : table, down e t = false) /\
     iteration ws e w
     = (if interrupt e then inl KeyboardInterrupt else inr tt,
        {| db := fold_left (fun d s => apply_statement s d)
                   (event_statements e r a c) (db w);
           submitted := submitted w ++ event_statements e r a c;
           emitted := emitted w + 1 |})) \/
  (exists (ex : exn) (w' : world) (new : list statement),
     iteration ws e w = (inl ex, w') /\
     ex <> KeyboardInterrupt /\
     emitted w' = emitted w /\
     submitted w' = submitted w ++ new /\
     (length new <= 7)%nat).
Proof.
  destruct (Py.random_choice (pick e) ws) as [ex|r] eqn:Hr.
  { right. exists ex, w, []. rewrite (iteration_no_row e ws w ex Hr).
    apply random_choice_exn in Hr as ->.
    rewrite app_nil_r.
    split; [reflexivity|]. split; [discriminate|]. repeat split. simpl. lia. }
  destruct (Py.float_of_str (row_amount r)) as [ex|a] eqn:Ha.
  { right. exists ex, w, []. rewrite (iteration_no_amount e ws w r ex Hr Ha).
    apply float_of_str_exn in Ha as ->.
    rewrite app_nil_r.
    split; [reflexivity|]. split; [discriminate|]. repeat split. simpl. lia. }
  destruct (Py.int_of_float (a * 100)%float) as [ex|c] eqn:Hc.
  { right. rewrite (iteration_no_cents e ws w r a ex Hr Ha Hc).
    pose proof (execute_all_submitted e
                  (firstn 3 (event_statements e r a 0)) w) as Hsub.
    pose proof (execute_all_emitted e
                  (firstn 3 (event_statements e r a 0)) w) as Hem.
    pose proof (execute_all_result e
                  (firstn 3 (event_statements e r a 0)) w) as Hres.
    pose proof (reached_length (fun s => down e (table_of s))
                  (firstn 3 (event_statements e r a 0))) as Hlen.
    change (length (firstn 3 (event_statements e r a 0))) with 3%nat in Hlen.
    unfold bind, raise.
    destruct (execute_all e _ w) as [[ex'|u] w1]; cbn [fst snd] in *.
    - exists ex', w1, (reached (fun s => down e (table_of s))
                         (firstn 3 (event_statements e r a 0))).
      split; [reflexivity|]. split; [|split; [exact Hem|split; [exact Hsub|lia]]].
      destruct (find _ _); [|discriminate Hres].
      injection Hres as ->. discriminate.
    - exists ex, w1, (reached (fun s => down e (table_of s))
                        (firstn 3 (event_statements e r a 0))).
      split; [reflexivity|]. split; [|split; [exact Hem|split; [exact Hsub|lia]]].
      apply int_of_float_exn in Hc as [ -> | -> ]; discriminate. }
  rewrite (iteration_fan_out e ws w r a c Hr Ha Hc).
  destruct (find (fun s => down e (table_of s)) (event_statements e r a c))
    as [s|] eqn:Hfind.
  - right.
    pose proof (execute_all_submitted e (event_statements e r a c) w) as Hsub.
    pose proof (execute_all_emitted e (event_statements e r a c) w) as Hem.
    pose proof (execute_all_result e (event_statements e r a c) w) as Hres.
    pose proof (reached_length (fun s => down e (table_of s))
                  (event_statements e r a c)) as Hlen.
    rewrite Hfind in Hres.
    change (length (event_statements e r a c)) with 7%nat in Hlen.
    unfold bind.
    destruct (execute_all e _ w) as [[ex'|u] w1]; cbn [fst snd] in *;
      [|discriminate Hres].
    exists ex', w1, (reached (fun s => down e (table_of s))
                       (event_statements e r a c)).
    split; [reflexivity|]. split; [|split; [exact Hem|split; [exact Hsub|lia]]].
    injection Hres as ->. discriminate.
  - left. exists r, a, c.
    assert (Hup : forall t : table, down e t = false).
    { intros t.
      assert (Hin : In t (map table_of (event_statements e r a c))).
      { rewrite event_tables. destruct t; simpl; tauto. }
      apply in_map_iff in Hin as (s & <- & Hin).
      exact (find_none _ _ Hfind s Hin). }
    repeat split; try done.
    unfold bind. rewrite (execute_all_up e _ Hup).
    unfold count_transaction, sleep, raise, ret. cbn [db submitted emitted].
    by destruct (interrupt e).
Qed.

(** X11.  Nothing is rolled back.  When a table is unavailable, the
    statements of the event that came before it have taken effect and stay,
    and the ones after it are never applied: an outage of
    [payment_method_stats] alone leaves the event counted under its
    category and missing under its payment method. *)
Theorem partial_fan_out_persists (ws : list row) (e : tick) (w : world)
    (r : row) (a : float) (c : Z) :
  Py.random_choice (pick e) ws = inr r ->
  Py.float_of_str (row_amount r) = inr a ->
  Py.int_of_float (a * 100)%float = inr c ->
  db (snd (iteration ws e w))
  = fold_left (fun d s => apply_statement s d)
      (accepted (fun s => down e (table_of s)) (event_statements e r a c))
      (db w) /\
  ((forall t : table, down e t = bool_decide (t = payment_method_stats)) ->
   counter_step (cnt_spending_by_category (db w))
     (cnt_spending_by_category (db (snd (iteration ws e w))))
     (row_category r) c /\
   cnt_payment_method_stats (db (snd (iteration ws e w)))
   = cnt_payment_method_stats (db w)).
Proof.
  intros Hr Ha Hc.
  assert (Hdb : db (snd (iteration ws e w))
                = fold_left (fun d s => apply_statement s d)
                    (accepted (fun s => down e (table_of s))
                       (event_statements e r a c)) (db w)).
  { rewrite (iteration_fan_out e ws w r a c Hr Ha Hc).
    destruct (after_statements e
                (execute_all e (event_statements e r a c)) w) as (-> & _).
    apply execute_all_db. }
  split; [exact Hdb|]. intros Hdown. rewrite Hdb.
  cbn [event_statements accepted table_of]. rewrite !Hdown.
  cbn [bool_decide decide_rel table_eq_dec fold_left apply_statement
       cnt_spending_by_category cnt_payment_method_stats].
  split; [apply counter_update_step|reflexivity].
Qed.

Lemma partial_fan_out_persists_witness :
  counter_step (cnt_spending_by_category (db initial_world))
    (cnt_spending_by_category
       (db (snd (iteration [purchase_29c] (outage payment_method_stats 0)
                   initial_world))))
    "grocery_pos" 28 /\
  cnt_payment_method_stats
    (db (snd (iteration [purchase_29c] (outage payment_method_stats 0)
                initial_world)))
  = cnt_payment_method_stats (db initial_world).
Proof.
  apply (partial_fan_out_persists [purchase_29c]
           (outage payment_method_stats 0) initial_world purchase_29c
           amount_29c 28).
  - reflexivity.
  - vm_compute. reflexivity.
  - vm_compute. reflexivity.
  - intros t. reflexivity.
Defined.

Lemma in_step_after_turn (e : tick) (r : row) (a : float) (c : Z)
    (w : world) :
  in_step w ->
  in_step {| db := fold_left (fun d s => apply_statement s d)
                     (event_statements e r a c) (db w);
             submitted := submitted w ++ event_statements e r a c;
             emitted := emitted w + 1 |}.
Proof.
  unfold in_step, total_writes. intros (Hsub & Hu & Hc & Hh).
  cbn [db submitted emitted event_statements fold_left apply_statement
       rows_transactions_by_user rows_transactions_by_category
       rows_hourly_transactions].
  rewrite !length_app.
  change (length (event_statements e r a c)) with 7%nat. cbn [length]. lia.
Qed.

Lemma stream_in_step (ws : list row) (ticks : list tick) :
  forall w : world,
    in_step w ->
    match stream ws ticks w with
    | Streaming w' =>
        in_step w' /\ emitted w' = emitted w + Z.of_nat (length ticks)
    | Stopped w' => in_step w'
    | Crashed ex w' =>
        ex <> KeyboardInterrupt /\
        total_writes w' <= Z.of_nat (length (submitted w'))
                        <= total_writes w' + 7
    end.
Proof.
  induction ticks as [|e ticks IH]; intros w Hw; cbn [stream].
  - split; [exact Hw|]. simpl. lia.
  - destruct (iteration_cases ws e w)
      as [(r & a & c & _ & _ & _ & _ & ->)|(ex & w' & new & -> & Hex & Hem
                                            & Hsub & Hlen)].
    + pose proof (in_step_after_turn e r a c w Hw) as Hw'.
      destruct (interrupt e); [exact Hw'|].
      specialize (IH _ Hw').
      destruct (stream ws ticks _) as [w2|w2|ex w2]; try exact IH.
      destruct IH as [Hin Hcount]. split; [exact Hin|].
      cbn [emitted length] in *. lia.
    + destruct ex; try done; split; try done;
        destruct Hw as (Hw & _); unfold total_writes in *;
        rewrite Hsub, length_app, Hem; lia.
Qed.

(** X12.  From the start of the stream on, the count and the keyspace stay
    in step.  While the loop runs and when Ctrl+C stops it during the
    sleep, [transaction_count * 7], which the summary prints as the total
    of writes, is the number of statements handed to Cassandra, and each
    log table received one INSERT per transaction counted; after [n] whole
    turns the count is [n].  When an exception ends the run, between zero
    and seven statements more than that were handed over. *)
Theorem summary_counts_the_writes (ws : list row) (ticks : list tick) :
  match stream ws ticks initial_world with
  | Streaming w => in_step w /\ emitted w = Z.of_nat (length ticks)
  | Stopped w => in_step w
  | Crashed ex w =>
      ex <> KeyboardInterrupt /\
      total_writes w <= Z.of_nat (length (submitted w)) <= total_writes w + 7
  end.
Proof.
  assert (Hstart : in_step initial_world) by (by repeat split).
  pose proof (stream_in_step ws ticks initial_world Hstart) as Hrun.
  destruct (stream ws ticks initial_world); exact Hrun.
Qed.



(* ===================================================================== *)
(** * Further properties of the counters                                  *)
(* ===================================================================== *)

Lemma tally_permutation (p : row -> bool) (evs evs' : list (row * Z)) :
  Permutation evs evs' -> tally p evs = tally p evs'.
Proof.
  induction 1 as [|[r c] evs evs' _ IH|[r1 c1] [r2 c2] evs|? ? ? _ IH1 _ IH2].
  - reflexivity.
  - cbn [tally]. by rewrite IH.
  - cbn [tally]. destruct (p r1), (p r2); try reflexivity.
    unfold counter_plus. simpl. f_equal; lia.
  - by rewrite IH1.
Qed.

Lemma tally_ext (p q : row -> bool) (evs : list (row * Z)) :
  (forall r : row, p r = q r) -> tally p evs = tally q evs.
Proof.
  intros Hpq. induction evs as [|[r c] evs IH]; [reflexivity|].
  cbn [tally]. by rewrite Hpq, IH.
Qed.

Lemma tally_none (p : row -> bool) (evs : list (row * Z)) :
  (forall r : row, p r = false) ->
  tally p evs = {| total_amount := 0; transaction_count := 0 |}.
Proof.
  intros Hp. induction evs as [|[r c] evs IH]; [reflexivity|].
  cbn [tally]. by rewrite Hp.
Qed.

(** The events of a run are read off its draws. *)
Lemma events_from_draws (ws : list row) (ticks : list tick)
    (evs : list (row * Z)) :
  Forall2 (fun e ev => Py.random_choice (pick e) ws = inr (fst ev) /\
                       cents_of (fst ev) = inr (snd ev)) ticks evs ->
  evs = map (fun d => match d with
                      | inr r => (r, match cents_of r with
                                     | inr c => c
                                     | inl _ => 0
                                     end)
                      | inl _ => (purchase_29c, 0)
                      end) (map (drawn ws) ticks).
Proof.
  induction 1 as [|e [r c] ticks evs [Hr Hc] _ IH]; [reflexivity|].
  cbn [map]. unfold drawn at 1. cbn [fst snd] in Hr, Hc.
  by rewrite Hr, Hc, <- IH.
Qed.

(** X14.  The counters do not depend on the order of the events: two runs
    without errors from the same keyspace whose draws are the same up to
    their order end with the same totals and counts under every key of the
    four counter tables. *)
Theorem counters_ignore_order (ws : list row) (ticks1 ticks2 : list tick)
    (w w1 w2 : world) :
  stream ws ticks1 w = Streaming w1 ->
  stream ws ticks2 w = Streaming w2 ->
  Permutation (map (drawn ws) ticks1) (map (drawn ws) ticks2) ->
  same_counters (db w1) (db w2).
Proof.
  intros Hrun1 Hrun2 Hperm.
  destruct (counters_after_run ws ticks1 w w1 Hrun1)
    as (evs1 & Hall1 & A1 & A2 & A3 & A4).
  destruct (counters_after_run ws ticks2 w w2 Hrun2)
    as (evs2 & Hall2 & B1 & B2 & B3 & B4).
  assert (Hevs : Permutation evs1 evs2).
  { rewrite (events_from_draws ws ticks1 evs1 Hall1).
    rewrite (events_from_draws ws ticks2 evs2 Hall2).
    by apply Permutation_map. }
  repeat split; intros k.
  - by rewrite A1, B1, (tally_permutation _ evs1 evs2 Hevs).
  - by rewrite A2, B2, (tally_permutation _ evs1 evs2 Hevs).
  - by rewrite A3, B3, (tally_permutation _ evs1 evs2 Hevs).
  - by rewrite A4, B4, (tally_permutation _ evs1 evs2 Hevs).
Qed.

Lemma counters_ignore_order_witness :
  same_counters
    (db (world_of (stream [purchase_29c; refund_5] [calm 0; calm 1]
                     initial_world)))
    (db (world_of (stream [purchase_29c; refund_5] [calm 1; calm 0]
                     initial_world))).
Proof.
  apply (counters_ignore_order [purchase_29c; refund_5] [calm 0; calm 1]
           [calm 1; calm 0] initial_world).
  - vm_compute. reflexivity.
  - vm_compute. reflexivity.
  - apply perm_swap.
Defined.

(** X15.  With the one user of the demo, the counters per user and category
    mirror the counters per category: after a run without errors from the
    fresh keyspace, [User_1] has under each category what the category has,
    and no other user has anything. *)
Theorem user_counters_mirror_category (ws : list row) (ticks : list tick)
    (w : world) :
  stream ws ticks initial_world = Streaming w ->
  (forall category : string,
     counter_at (cnt_spending_by_user_category (db w))
       (DEMO_USER_ID, category)
     = counter_at (cnt_spending_by_category (db w)) category) /\
  (forall user category : string,
     user <> DEMO_USER_ID ->
     counter_at (cnt_spending_by_user_category (db w)) (user, category)
     = {| total_amount := 0; transaction_count := 0 |}).
Proof.
  intros Hrun.
  destruct (counters_after_run ws ticks initial_world w Hrun)
    as (evs & _ & Hcat & Huser & _).
  split.
  - intros category. rewrite Huser, Hcat. f_equal.
    apply tally_ext. intros r. apply bool_decide_ext.
    split; [by intros [= ->]|by intros ->].
  - intros user category Hother. rewrite Huser, tally_none; [reflexivity|].
    intros r. apply bool_decide_eq_false_2. intros [= Hu _].
    by apply Hother.
Qed.

Lemma user_counters_mirror_category_witness :
  counter_at
    (cnt_spending_by_user_category
       (db (world_of (stream [purchase_29c] [calm 0; calm 0] initial_world))))
    (DEMO_USER_ID, "grocery_pos")
  = counter_at
      (cnt_spending_by_category
         (db (world_of (stream [purchase_29c] [calm 0; calm 0]
                          initial_world))))
      "grocery_pos".
Proof.
  apply (user_counters_mirror_category [purchase_29c] [calm 0; calm 0]).
  vm_compute. reflexivity.
Defined.

(* ===================================================================== *)
(** * Further properties of the hour bucket                               *)
(* ===================================================================== *)

Lemma str_leb_refl (s : string) : Py.str_leb s s = true.
Proof.
  induction s as [|c s IH]; [reflexivity|]. by rewrite str_leb_same_head.
Qed.

Lemma hour_bucket_order (t1 t2 : Py.datetime) :
  Py.valid_datetime t1 -> Py.valid_datetime t2 ->
  Py.str_leb (get_hour_bucket t1) (get_hour_bucket t2)
  = Py.lex_leb [Py.year t1; Py.month t1; Py.day t1; Py.hour t1]
               [Py.year t2; Py.month t2; Py.day t2; Py.hour t2].
Proof.
  intros (Hy1 & Hm1 & Hd1 & Hh1 & _) (Hy2 & Hm2 & Hd2 & Hh2 & _).
  rewrite !get_hour_bucket_fields.
  rewrite str_leb_four_digits, str_leb_same_head by lia.
  rewrite str_leb_two_digits, str_leb_same_head by lia.
  rewrite str_leb_two_digits, str_leb_same_head by lia.
  rewrite str_leb_two_digits by lia.
  cbn [Py.lex_leb Py.str_leb].
  by repeat match goal with
            | |- context [(?x <? ?y)%nat] => destruct (x <? y)%nat
            | |- context [(?x =? ?y)%nat] => destruct (x =? y)%nat
            end.
Qed.

Lemma same_bucket_same_hour (t1 t2 : Py.datetime) :
  Py.valid_datetime t1 -> Py.valid_datetime t2 ->
  get_hour_bucket t1 = get_hour_bucket t2 -> same_hour t1 t2.
Proof.
  intros Hv1 Hv2 Heq.
  pose proof (hour_bucket_order t1 t2 Hv1 Hv2) as H12.
  pose proof (hour_bucket_order t2 t1 Hv2 Hv1) as H21.
  rewrite Heq, str_leb_refl in H12. rewrite Heq, str_leb_refl in H21.
  cbn [Py.lex_leb] in H12, H21. unfold same_hour.
  repeat match type of H12 with
         | context [(?x <? ?y)%nat] => destruct (Nat.ltb_spec x y)
         | context [(?x =? ?y)%nat] => destruct (Nat.eqb_spec x y)
         end; try discriminate H12;
  repeat match type of H21 with
         | context [(?x <? ?y)%nat] => destruct (Nat.ltb_spec x y)
         | context [(?x =? ?y)%nat] => destruct (Nat.eqb_spec x y)
         end; try discriminate H21; try lia; by repeat split.
Qed.

Lemma same_hour_same_bucket (t1 t2 : Py.datetime) :
  same_hour t1 t2 -> get_hour_bucket t1 = get_hour_bucket t2.
Proof.
  intros (Hy & Hm & Hd & Hh). rewrite !get_hour_bucket_fields.
  by rewrite Hy, Hm, Hd, Hh.
Qed.

(** X16.  The hour bucket names the hour and nothing else: two wall-clock
    readings have the same bucket exactly when they lie in the same hour of
    the same day. *)
Theorem hour_bucket_names_the_hour (t1 t2 : Py.datetime) :
  Py.valid_datetime t1 -> Py.valid_datetime t2 ->
  get_hour_bucket t1 = get_hour_bucket t2 <-> same_hour t1 t2.
Proof.
  intros Hv1 Hv2. split.
  - by apply same_bucket_same_hour.
  - apply same_hour_same_bucket.
Qed.

Lemma hour_bucket_names_the_hour_witness :
  get_hour_bucket noon
  = get_hour_bucket
      {| Py.year := 2024; Py.month := 3; Py.day := 9; Py.hour := 12;
         Py.minute := 59; Py.second := 59; Py.microsecond := 999 |}.
Proof.
  apply hour_bucket_names_the_hour.
  - unfold Py.valid_datetime, noon. simpl. lia.
  - unfold Py.valid_datetime. simpl. lia.
  - by repeat split.
Defined.

(** X17.  The hourly query of the dashboard returns rows of the current
    hour only: a row the generator wrote at reading [t'] is in the
    partition read at reading [t] exactly when it is in the table and [t']
    lies in the same hour as [t].  At the turn of the hour the rows of the
    hour before are no longer read. *)
Theorem hourly_query_reads_current_hour (d : database)
    (t t' : Py.datetime) (id : N) (user : string) (a : float)
    (category : string) :
  Py.valid_datetime t -> Py.valid_datetime t' ->
  In (insert_hourly (get_hour_bucket t') t' id user a category)
     (Dashboard.hourly_partition d t)
  <-> In (insert_hourly (get_hour_bucket t') t' id user a category)
         (rows_hourly_transactions d) /\ same_hour t' t.
Proof.
  intros Hv Hv'. unfold Dashboard.hourly_partition.
  rewrite filter_In. cbn [Dashboard.in_partition].
  unfold Dashboard.current_hour. fold (get_hour_bucket t).
  rewrite String.eqb_eq. split.
  - intros [Hin Heq]. split; [exact Hin|].
    by apply same_bucket_same_hour.
  - intros [Hin Hsame]. split; [exact Hin|].
    by apply same_hour_same_bucket.
Qed.

Lemma hourly_query_reads_current_hour_witness :
  In (insert_hourly (get_hour_bucket noon) noon 0%N DEMO_USER_ID amount_29c
        "grocery_pos")
     (Dashboard.hourly_partition
        (db (snd (iteration [purchase_29c] (calm 0) initial_world))) noon)
  <-> In (insert_hourly (get_hour_bucket noon) noon 0%N DEMO_USER_ID
            amount_29c "grocery_pos")
         (rows_hourly_transactions
            (db (snd (iteration [purchase_29c] (calm 0) initial_world))))
      /\ same_hour noon noon.
Proof.
  apply hourly_query_reads_current_hour.
  - unfold Py.valid_datetime, noon. simpl. lia.
  - unfold Py.valid_datetime, noon. simpl. lia.
Defined.

(* ===================================================================== *)
(** * Where the written values come from                                  *)
(* ===================================================================== *)

(** Whatever a turn adds to the statements handed over or to the log rows
    is one of the statements of the event built from the row it drew. *)
Lemma iteration_recorded (ws : list row) (e : tick) (w : world)
    (s : statement) :
  recorded (snd (iteration ws e w)) s ->
  recorded w s \/
  exists (r : row) (a : float) (c : Z),
    Py.random_choice (pick e) ws = inr r /\
    Py.float_of_str (row_amount r) = inr a /\
    In s (event_statements e r a c).
Proof.
  intros Hnew.
  destruct (Py.random_choice (pick e) ws) as [ex|r] eqn:Hr.
  { rewrite (iteration_no_row e ws w ex Hr) in Hnew. by left. }
  destruct (Py.float_of_str (row_amount r)) as [ex|a] eqn:Ha.
  { rewrite (iteration_no_amount e ws w r ex Hr Ha) in Hnew. by left. }
  destruct (Py.int_of_float (a * 100)%float) as [ex|c] eqn:Hc.
  - rewrite (iteration_no_cents e ws w r a ex Hr Ha Hc) in Hnew.
    assert (Hrec : recorded
                     (snd (execute_all e
                             (firstn 3 (event_statements e r a 0)) w)) s).
    { unfold bind, raise in Hnew.
      by destruct (execute_all e _ w) as [[ex'|u] w1]. }
    apply execute_all_recorded in Hrec as [Hrec|Hin]; [by left|].
    right. exists r, a, 0. split; [reflexivity|]. split; [exact Ha|].
    cbn [firstn event_statements In] in Hin. cbn [event_statements In].
    tauto.
  - rewrite (iteration_fan_out e ws w r a c Hr Ha Hc) in Hnew.
    destruct (after_statements e
                (execute_all e (event_statements e r a c)) w)
      as (Hdb & Hsub & _).
    unfold recorded in Hnew. rewrite Hdb, Hsub in Hnew.
    apply execute_all_recorded in Hnew as [Hrec|Hin]; [by left|].
    right. by exists r, a, c.
Qed.

(** X18.  A turn writes nothing of its own making: every statement it hands
    to Cassandra and every row it adds to a log table is one of the seven
    statements built from a row of the working set, with the category,
    the cleaned merchant and the payment method of that row. *)
Theorem written_values_come_from_working_set (ws : list row) (e : tick)
    (w : world) (s : statement) :
  recorded (snd (iteration ws e w)) s ->
  ~ recorded w s ->
  exists (r : row) (a : float) (c : Z),
    In r ws /\
    Py.float_of_str (row_amount r) = inr a /\
    In s (event_statements e r a c).
Proof.
  intros Hnew Hold.
  destruct (iteration_recorded ws e w s Hnew)
    as [Hrec|(r & a & c & Hr & Ha & Hin)]; [by destruct Hold|].
  exists r, a, c. split; [|by split].
  by apply (random_choice_In (pick e)).
Qed.

Lemma written_values_come_from_working_set_witness :
  exists (r : row) (a : float) (c : Z),
    In r [purchase_29c] /\
    Py.float_of_str (row_amount r) = inr a /\
    In (update_payment_method_stats 28 "credit_card")
       (event_statements (calm 0) r a c).
Proof.
  apply (written_values_come_from_working_set [purchase_29c] (calm 0)
           initial_world (update_payment_method_stats 28 "credit_card")).
  - left. vm_compute. do 6 right. left. reflexivity.
  - unfold recorded. simpl. tauto.
Defined.

Lemma filter_all {A : Type} (f : A -> bool) (l : list A) :
  (forall x : A, In x l -> f x = true) -> List.filter f l = l.
Proof.
  induction l as [|x l IH]; intros Hall; [reflexivity|].
  simpl. rewrite (Hall x) by (by left).
  rewrite IH; [reflexivity|]. intros y Hy. apply Hall. by right.
Qed.

Section Feed.

(** Every row of [transactions_by_user] lies in the partition of
    [User_1]. *)
Let in_feed (d : database) : Prop :=
  forall s : statement,
    In s (rows_transactions_by_user d) ->
    in_user_partition "User_1" s = true.

Lemma apply_statement_feed (s : statement) (d : database) :
  (table_of s = transactions_by_user ->
   in_user_partition "User_1" s = true) ->
  in_feed d -> in_feed (apply_statement s d).
Proof.
  unfold in_feed. intros Hs Hd x Hx.
  destruct s; cbn [apply_statement rows_transactions_by_user] in Hx;
    try (by apply Hd).
  apply in_app_iff in Hx as [Hx | [ <- | [] ] ]; [by apply Hd|by apply Hs].
Qed.

Lemma execute_all_feed (e : tick) (ss : list statement) :
  (forall s : statement,
     In s ss -> table_of s = transactions_by_user ->
     in_user_partition "User_1" s = true) ->
  forall w : world,
    in_feed (db w) -> in_feed (db (snd (execute_all e ss w))).
Proof.
  induction ss as [|s ss IH]; intros Hss w Hw; [exact Hw|].
  cbn [execute_all]. unfold bind, session_execute.
  destruct (down e (table_of s)); [exact Hw|].
  apply IH; [intros x Hx; apply Hss; by right|].
  cbn [db snd]. apply apply_statement_feed; [|exact Hw].
  apply Hss. by left.
Qed.

Lemma event_statements_feed (e : tick) (r : row) (a : float) (c : Z)
    (s : statement) :
  In s (event_statements e r a c) ->
  table_of s = transactions_by_user ->
  in_user_partition "User_1" s = true.
Proof.
  intros Hin Ht. simpl in Hin.
  repeat (destruct Hin as [ <- | Hin ];
          [first [reflexivity | discriminate Ht]|]).
  destruct Hin.
Qed.

Lemma iteration_feed (ws : list row) (e : tick) (w : world) :
  in_feed (db w) -> in_feed (db (snd (iteration ws e w))).
Proof.
  intros Hw.
  destruct (Py.random_choice (pick e) ws) as [ex|r] eqn:Hr.
  { by rewrite (iteration_no_row e ws w ex Hr). }
  destruct (Py.float_of_str (row_amount r)) as [ex|a] eqn:Ha.
  { by rewrite (iteration_no_amount e ws w r ex Hr Ha). }
  destruct (Py.int_of_float (a * 100)%float) as [ex|c] eqn:Hc.
  - rewrite (iteration_no_cents e ws w r a ex Hr Ha Hc).
    assert (Hin : in_feed
                    (db (snd (execute_all e
                                (firstn 3 (event_statements e r a 0)) w)))).
    { apply execute_all_feed; [|exact Hw]. intros s Hs.
      apply (event_statements_feed e r a 0).
      cbn [firstn event_statements In] in Hs. cbn [event_statements In].
      tauto. }
    unfold bind, raise.
    by destruct (execute_all e _ w) as [[ex'|u] w1].
  - rewrite (iteration_fan_out e ws w r a c Hr Ha Hc).
    destruct (after_statements e
                (execute_all e (event_statements e r a c)) w) as (-> & _).
    apply execute_all_feed; [|exact Hw].
    intros s. apply event_statements_feed.
Qed.

Lemma stream_feed (ws : list row) (ticks : list tick) :
  forall w : world,
    in_feed (db w) -> in_feed (db (world_of (stream ws ticks w))).
Proof.
  induction ticks as [|e ticks IH]; intros w Hw; [exact Hw|].
  cbn [stream]. pose proof (iteration_feed ws e w Hw) as Hturn.
  destruct (iteration ws e w) as [[ex|u] w1]; cbn [snd] in Hturn.
  - by destruct ex.
  - by apply IH.
Qed.

End Feed.

(** X19.  The feed query of the dashboard reads the partition of [User_1],
    and that is where the generator writes: however the run went, every row
    of [transactions_by_user] lies in the partition the feed reads. *)
Theorem feed_reads_what_is_written (ws : list row) (ticks : list tick) :
  let d := db (world_of (stream ws ticks initial_world)) in
  feed_partition d = rows_transactions_by_user d.
Proof.
  intros d. subst d. apply filter_all.
  apply (stream_feed ws ticks initial_world). intros s [].
Qed.

(* ===================================================================== *)
(** * The draw from a working set that is not empty                       *)
(* ===================================================================== *)

Lemma iteration_no_IndexError (ws : list row) (e : tick) (w : world) :
  ws <> [] -> fst (iteration ws e w) <> inl IndexError.
Proof.
  intros Hws.
  destruct (Py.random_choice (pick e) ws) as [ex|r] eqn:Hr.
  { unfold Py.random_choice in Hr. by destruct ws. }
  destruct (Py.float_of_str (row_amount r)) as [ex|a] eqn:Ha.
  { rewrite (iteration_no_amount e ws w r ex Hr Ha).
    apply float_of_str_exn in Ha as ->. discriminate. }
  destruct (Py.int_of_float (a * 100)%float) as [ex|c] eqn:Hc.
  - rewrite (iteration_no_cents e ws w r a ex Hr Ha Hc).
    pose proof (execute_all_result e
                  (firstn 3 (event_statements e r a 0)) w) as Hres.
    unfold bind, raise.
    destruct (execute_all e _ w) as [[ex'|u] w1]; cbn [fst] in *.
    + destruct (find _ _); [|discriminate Hres].
      injection Hres as ->. discriminate.
    + apply int_of_float_exn in Hc as [ -> | -> ]; discriminate.
  - rewrite (iteration_fan_out e ws w r a c Hr Ha Hc).
    destruct (after_statements e
                (execute_all e (event_statements e r a c)) w)
      as (_ & _ & ->).
    rewrite execute_all_result.
    destruct (find _ _); [discriminate|].
    destruct (interrupt e); discriminate.
Qed.

Lemma stream_no_IndexError (ws : list row) (ticks : list tick) :
  ws <> [] ->
  forall w w' : world, stream ws ticks w <> Crashed IndexError w'.
Proof.
  intros Hws. induction ticks as [|e ticks IH]; intros w w';
    cbn [stream]; [discriminate|].
  pose proof (iteration_no_IndexError ws e w Hws) as Hturn.
  destruct (iteration ws e w) as [[ex|u] w1]; cbn [fst] in Hturn.
  - destruct ex; try discriminate. by destruct Hturn.
  - apply IH.
Qed.

(** X20.  With a capacity of at least one and a source of at least one
    record the working set is not empty, and the draw of the streaming loop
    never fails: the program does not end with [IndexError], whatever else
    happens in the run. *)
Theorem draw_never_fails (cap : Z) (randint : nat -> nat) (f : source_file)
    (ticks : list tick) (w : world) :
  0 < cap -> consistent f -> records f <> [] ->
  main (Some f) cap randint ticks <> Crashed IndexError w.
Proof.
  intros Hcap Hf Hrec. unfold main.
  destruct (load_data (Some f) cap randint) as [ex|ws] eqn:Hload.
  { destruct (loading_total cap randint f) as [ws Hws]. congruence. }
  apply stream_no_IndexError. intros ->.
  assert (Hsize : Z.of_nat (length (@nil row))
                  = Z.min (Z.of_nat (length (records f))) cap).
  { unfold load_data, total_rows, consistent in *.
    destruct (Z.gtb_spec (Z.of_nat (line_count f) - 1) cap) as [Hbig|Hsmall].
    - destruct (sample_from_total cap randint (records f) 0 [])
        as (ws' & Hrun & Hlen); [simpl; lia|].
      rewrite Hrun in Hload. injection Hload as <-. simpl in Hlen. lia.
    - injection Hload as Hnil. by destruct Hrec. }
  destruct (records f); [by destruct Hrec|]. simpl in Hsize. lia.
Qed.

Lemma draw_never_fails_witness :
  main (Some {| line_count := 3; records := [purchase_29c; refund_5] |}) 1
    (fun _ => 0%nat) [calm 0; outage hourly_transactions 1]
  <> Crashed IndexError initial_world.
Proof.
  apply draw_never_fails.
  - lia.
  - unfold consistent. simpl. lia.
  - discriminate.
Defined.
